(** * Streamer Insight App: chat ingestion and presence tracking

    A shallow embedding of the state-carrying parts of [main.py]: the IRC
    connect loop with its backoff, the IRC line handlers and the emote
    parser, the YouTube live-chat poll step with its failure classes and
    the stream watcher, the lurker (presence) refresh, and the guard of
    the send operation.

    Conventions.
    - A Python [str] is a Rocq [string]; each [ascii] stands for the code
      point of the same number, so the model covers the strings whose
      code points are below 256.
    - A [datetime] is a [Z] number of microseconds (the resolution of
      [datetime]); [time.time()] is a rational number of seconds.
    - The global dictionary [g] becomes one record per component, holding
      the keys that component reads or writes.
    - Calls that leave the process (sockets, HTTP, the clock, sound, Tk
      timers) are inputs of the step functions or entries of an effect
      log. *)

From Stdlib Require Import ZArith QArith Lia Bool Ascii String.
From stdpp Require Import gmap strings list.

Close Scope Q_scope.
Open Scope Z_scope.

(* stdpp's solvers clear hypotheses that an earlier step may have used up *)
#[local] Set Warnings "-clear-no-such-hyp".

(** ** Python string operations *)

Module Py.

Definition len (s : string) : Z := Z.of_nat (String.length s).

(** [s.startswith(p)] *)
Definition startswith (p s : string) : bool := String.prefix p s.

(** [sub in s] *)
Fixpoint contains (sub s : string) : bool :=
  String.prefix sub s ||
  match s with
  | EmptyString => false
  | String _ s' => contains sub s'
  end.

Fixpoint drop (n : nat) (s : string) : string :=
  match n, s with
  | O, _ => s
  | S _, EmptyString => EmptyString
  | S n', String _ s' => drop n' s'
  end.

Fixpoint find_at (sub s : string) (i : nat) : option nat :=
  if String.prefix sub s then Some i
  else match s with
       | EmptyString => None
       | String _ s' => find_at sub s' (S i)
       end.

(** [s.find(sub, start)] for [start >= 0] *)
Definition find (sub s : string) (start : nat) : Z :=
  match find_at sub (drop start s) start with
  | Some i => Z.of_nat i
  | None => -1
  end.

Definition cons_head (c : ascii) (ws : list string) : list string :=
  match ws with
  | [] => [String c EmptyString]
  | w :: ws' => String c w :: ws'
  end.

(** [s.split(sep)] for a separator of one character *)
Fixpoint split (sep : ascii) (s : string) : list string :=
  match s with
  | EmptyString => [EmptyString]
  | String c s' =>
      if Ascii.eqb c sep then EmptyString :: split sep s'
      else cons_head c (split sep s')
  end.

(** [s.split(sep, n)] for a separator of one character *)
Fixpoint splitn (sep : ascii) (s : string) (n : nat) : list string :=
  match s with
  | EmptyString => [EmptyString]
  | String c s' =>
      match n with
      | O => [s]
      | S n' =>
          if Ascii.eqb c sep then EmptyString :: splitn sep s' n'
          else cons_head c (splitn sep s' n)
      end
  end.

(** [s.lstrip(c)] for one character [c] *)
Fixpoint lstrip (c : ascii) (s : string) : string :=
  match s with
  | String d s' => if Ascii.eqb d c then lstrip c s' else s
  | EmptyString => EmptyString
  end.

(** The code points below 256 for which [str.isspace] holds. *)
Definition isspace (c : ascii) : bool :=
  let n := N_of_ascii c in
  (((9 <=? n) && (n <=? 13)) || ((28 <=? n) && (n <=? 32))
   || (n =? 133) || (n =? 160))%N.

Fixpoint lstrip_ws (s : string) : string :=
  match s with
  | String d s' => if isspace d then lstrip_ws s' else s
  | EmptyString => EmptyString
  end.

(** [s.strip()] *)
Definition strip (s : string) : string :=
  String.rev (lstrip_ws (String.rev (lstrip_ws s))).

(** The white space that [int] accepts around a literal. *)
Definition int_isspace (c : ascii) : bool :=
  let n := N_of_ascii c in
  (((9 <=? n) && (n <=? 13)) || (n =? 32) || (n =? 133) || (n =? 160))%N.

Fixpoint int_lstrip (s : string) : string :=
  match s with
  | String d s' => if int_isspace d then int_lstrip s' else s
  | EmptyString => EmptyString
  end.

Definition is_digit (c : ascii) : bool :=
  let n := N_of_ascii c in ((48 <=? n) && (n <=? 57))%N.

Definition digit_val (c : ascii) : Z := Z.of_N (N_of_ascii c) - 48.

(** The digits of an integer literal: decimal digits, with single
    underscores allowed between two digits. *)
Fixpoint int_digits (s : string) (acc : Z) (after_digit : bool) : option Z :=
  match s with
  | EmptyString => if after_digit then Some acc else None
  | String c s' =>
      if is_digit c then int_digits s' (10 * acc + digit_val c) true
      else if Ascii.eqb c "_" && after_digit then int_digits s' acc false
      else None
  end.

(** [int(s)]: surrounding white space, an optional sign, digits;
    [None] stands for [ValueError]. *)
Definition int (s : string) : option Z :=
  match String.rev (int_lstrip (String.rev (int_lstrip s))) with
  | String "+" d => int_digits d 0 false
  | String "-" d => Z.opp <$> int_digits d 0 false
  | d => int_digits d 0 false
  end.

(** [s[lo:hi]] *)
Definition slice (s : string) (lo hi : Z) : string :=
  let n := len s in
  let norm i := if i <? 0 then Z.max 0 (i + n) else Z.min i n in
  let lo' := norm lo in
  let hi' := norm hi in
  if lo' <? hi' then String.substring (Z.to_nat lo') (Z.to_nat (hi' - lo')) s
  else EmptyString.

(** [s.lower()] on code points below 256 *)
Definition lower_char (c : ascii) : ascii :=
  let n := N_of_ascii c in
  if (((65 <=? n) && (n <=? 90))
      || ((192 <=? n) && (n <=? 222) && negb (n =? 215)))%N
  then ascii_of_N (n + 32) else c.

Fixpoint lower (s : string) : string :=
  match s with
  | EmptyString => EmptyString
  | String c s' => String (lower_char c) (lower s')
  end.

(** The code points below 256 that the pattern [\w] matches. *)
Definition is_word (c : ascii) : bool :=
  let n := N_of_ascii c in
  (((48 <=? n) && (n <=? 57)) || ((65 <=? n) && (n <=? 90)) || (n =? 95)
   || ((97 <=? n) && (n <=? 122)) || (n =? 170) || (n =? 178) || (n =? 179)
   || (n =? 181) || (n =? 185) || (n =? 186) || ((188 <=? n) && (n <=? 190))
   || ((192 <=? n) && (n <=? 214)) || ((216 <=? n) && (n <=? 246))
   || (248 <=? n))%N.

(** Truth value of a string and of an optional string *)
Definition truthy (s : string) : bool :=
  match s with EmptyString => false | _ => true end.

Definition truthy_opt (o : option string) : bool :=
  match o with Some s => truthy s | None => false end.

End Py.


(** ** The IRC client: [_irc_connect_loop], [_process_irc_line],
       [_handle_privmsg] *)

Module Irc.

(** The values of [g["tw_state"]]. *)
Inductive conn_state :=
| Disconnected | Connecting | Connected | Reconnecting | Failed.

(** The texts written to [chat_status_label]. *)
Inductive label :=
| LblNoToken
| LblReconnectingIn (b : Z)
| LblDebug (text : string)
| LblAuthFailed
| LblConnectedAs
| LblDisconnected.

(** What [_append_chat_message] receives from [_handle_privmsg]. *)
Record chat_event := {
  author : string;
  body : string;
  emote_map : gmap string string
}.

(** Calls that leave the loop, in the order they are made. *)
Inductive effect :=
| Spawn                    (* the loop thread is started *)
| SockConnected            (* [sock.connect] returned *)
| Wait (secs : Z)          (* [g["tw_stop_event"].wait(backoff)] *)
| SendPing
| SendPong
| SetLabel (l : label)
| Display (e : chat_event).

(** Where the loop thread is blocked. *)
Inductive pc :=
| Idle                     (* no loop thread *)
| AtConnect                (* inside the [try], up to [sock.connect] *)
| Reading (buf : string)   (* inside [sock.recv] *)
| Waiting.                 (* inside [tw_stop_event.wait] *)

Record state := {
  tw_state : conn_state;
  tw_backoff : Z;
  tw_stop : bool;            (* [g["tw_stop_event"].is_set()] *)
  chat_socket : bool;        (* [g["chat_socket"]] holds a socket *)
  sock_timeout : Z;          (* seconds, as last given to [settimeout] *)
  auto_channel : string;     (* [AUTO_CHANNEL] *)
  at_pc : pc;
  ui_pending : list string;  (* lines given to [root.after(0, ...)], oldest first *)
  trace : list effect        (* newest first *)
}.

Definition set_tw_state (s : conn_state) (st : state) : state :=
  {| tw_state := s; tw_backoff := tw_backoff st; tw_stop := tw_stop st;
     chat_socket := chat_socket st; sock_timeout := sock_timeout st;
     auto_channel := auto_channel st; at_pc := at_pc st;
     ui_pending := ui_pending st; trace := trace st |}.

Definition set_backoff (b : Z) (st : state) : state :=
  {| tw_state := tw_state st; tw_backoff := b; tw_stop := tw_stop st;
     chat_socket := chat_socket st; sock_timeout := sock_timeout st;
     auto_channel := auto_channel st; at_pc := at_pc st;
     ui_pending := ui_pending st; trace := trace st |}.

Definition set_stop (b : bool) (st : state) : state :=
  {| tw_state := tw_state st; tw_backoff := tw_backoff st; tw_stop := b;
     chat_socket := chat_socket st; sock_timeout := sock_timeout st;
     auto_channel := auto_channel st; at_pc := at_pc st;
     ui_pending := ui_pending st; trace := trace st |}.

Definition set_socket (b : bool) (st : state) : state :=
  {| tw_state := tw_state st; tw_backoff := tw_backoff st; tw_stop := tw_stop st;
     chat_socket := b; sock_timeout := sock_timeout st;
     auto_channel := auto_channel st; at_pc := at_pc st;
     ui_pending := ui_pending st; trace := trace st |}.

Definition set_timeout (t : Z) (st : state) : state :=
  {| tw_state := tw_state st; tw_backoff := tw_backoff st; tw_stop := tw_stop st;
     chat_socket := chat_socket st; sock_timeout := t;
     auto_channel := auto_channel st; at_pc := at_pc st;
     ui_pending := ui_pending st; trace := trace st |}.

Definition set_pc (p : pc) (st : state) : state :=
  {| tw_state := tw_state st; tw_backoff := tw_backoff st; tw_stop := tw_stop st;
     chat_socket := chat_socket st; sock_timeout := sock_timeout st;
     auto_channel := auto_channel st; at_pc := p;
     ui_pending := ui_pending st; trace := trace st |}.

Definition set_pending (l : list string) (st : state) : state :=
  {| tw_state := tw_state st; tw_backoff := tw_backoff st; tw_stop := tw_stop st;
     chat_socket := chat_socket st; sock_timeout := sock_timeout st;
     auto_channel := auto_channel st; at_pc := at_pc st;
     ui_pending := l; trace := trace st |}.

Definition emit (e : effect) (st : state) : state :=
  {| tw_state := tw_state st; tw_backoff := tw_backoff st; tw_stop := tw_stop st;
     chat_socket := chat_socket st; sock_timeout := sock_timeout st;
     auto_channel := auto_channel st; at_pc := at_pc st;
     ui_pending := ui_pending st; trace := e :: trace st |}.

(** The state of a fresh process (the initial values in [g]). *)
Definition init (channel : string) : state :=
  {| tw_state := Disconnected; tw_backoff := 2; tw_stop := false;
     chat_socket := false; sock_timeout := 0; auto_channel := channel;
     at_pc := Idle; ui_pending := []; trace := [] |}.

(** *** The emote descriptor *)

(** One entry of the descriptor, [id:range[,range...]]: the key and the
    value it adds to [emote_map], or [None] when the entry adds nothing
    (no colon, a bound that is no integer, no second bound, or the
    test on [s] and [e2] fails). *)
Definition emote_entry (msg entry : string) : option (string * string) :=
  if Py.contains ":" entry then
    match Py.splitn ":" entry 1 with
    | [eid; ranges] =>
        let rng := Py.split "-" (hd EmptyString (Py.split "," ranges)) in
        s ← rng !! 0%nat ≫= Py.int;
        e ← rng !! 1%nat ≫= Py.int;
        let e2 := e + 1 in
        if (0 <=? s) && (e2 <=? Py.len msg)
        then Some (Py.slice msg s e2, eid) else None
    | _ => None
    end
  else None.

Definition add_emote (msg : string) (m : gmap string string) (entry : string)
  : gmap string string :=
  match emote_entry msg entry with
  | Some (text, eid) => <[text := eid]> m
  | None => m
  end.

Definition parse_emotes (msg emote_data : string) : gmap string string :=
  if Py.truthy emote_data
  then foldl (add_emote msg) ∅ (Py.split "/" emote_data)
  else ∅.

(** *** [_handle_privmsg] *)

Inductive outcome (A : Type) :=
| Returned (a : A)
| Raised.                  (* an exception leaves the function *)
Arguments Returned {A} a.
Arguments Raised {A}.

Definition add_tag (d : gmap string string) (t : string) : gmap string string :=
  if Py.contains "=" t then
    match Py.splitn "=" t 1 with
    | [k; v] => <[k := v]> d
    | _ => d
    end
  else d.

Definition tags_of (first : string) : gmap string string :=
  foldl add_tag ∅ (Py.split ";" (Py.lstrip "@" first)).

(** A maximal run of [\w] characters and the rest. *)
Fixpoint span_word (s : string) : string * string :=
  match s with
  | String c s' =>
      if Py.is_word c then let '(w, r) := span_word s' in (String c w, r)
      else (EmptyString, s)
  | EmptyString => (EmptyString, EmptyString)
  end.

(** [\w+] followed by the literal [lit]: the word and what follows. *)
Definition word_then (lit s : string) : option (string * string) :=
  let '(w, r) := span_word s in
  if Py.truthy w && Py.startswith lit r
  then Some (w, Py.drop (String.length lit) r) else None.

(** [.*]: up to the first line feed. *)
Fixpoint to_newline (s : string) : string :=
  match s with
  | String c s' => if Ascii.eqb c "010" then EmptyString else String c (to_newline s')
  | EmptyString => EmptyString
  end.

(** [re.match] with the pattern of the untagged branch: a colon, a
    word (group 1), [!], a word, [@], a word, the literal
    [.tmi.twitch.tv PRIVMSG #], a word, a space and a colon, and the
    rest of the line (group 2). A word is one or more [\w]; since
    none of the literals starts with a [\w], each word is a maximal
    run. *)
Definition re_match_privmsg (line : string) : option (string * string) :=
  match line with
  | String ":" s0 =>
      '(user, s1) ← word_then "!" s0;
      '(_, s2) ← word_then "@" s1;
      '(_, s3) ← word_then ".tmi.twitch.tv PRIVMSG #" s2;
      '(_, s4) ← word_then " :" s3;
      Some (user, to_newline s4)
  | _ => None
  end.

(** The first part of [_handle_privmsg]: [emote_data], [user] and
    [msg] as they stand before the test [if not user or not msg]. *)
Definition privmsg_fields (line : string) : outcome (string * string * string) :=
  if Py.startswith "@" line then
    let parts := Py.splitn " " line 2 in
    let tag_dict := tags_of (hd EmptyString parts) in
    let emote_data := default EmptyString (tag_dict !! "emotes"%string) in
    let user := default EmptyString (tag_dict !! "display-name"%string) in
    match parts with
    | p0 :: p1 :: _ =>
        let user :=
          if Py.truthy user then user
          else Py.lstrip ":" (hd EmptyString (Py.split "!" p1)) in
        let idx := Py.find " :" line (String.length p0 + String.length p1) in
        let msg :=
          if 0 <=? idx then Py.drop (Z.to_nat (idx + 2)) line else EmptyString in
        Returned (emote_data, user, msg)
    | _ => Raised            (* [parts[1]]: IndexError *)
    end
  else
    match re_match_privmsg line with
    | Some (user, msg) => Returned (EmptyString, user, msg)
    | None => Returned (EmptyString, EmptyString, EmptyString)
    end.

(** [_handle_privmsg]: the message handed to [_append_chat_message],
    [None] when the function returns without displaying. The sound
    cue, the chat log file and the message-id store, which do not
    touch the message, are left out. *)
Definition handle_privmsg (line : string) : outcome (option chat_event) :=
  match privmsg_fields line with
  | Raised => Raised
  | Returned (emote_data, user, msg) =>
      if negb (Py.truthy user) || negb (Py.truthy msg) then Returned None
      else Returned (Some {| author := user; body := msg;
                             emote_map := parse_emotes msg emote_data |})
  end.

(** *** [_process_irc_line] (runs on the main thread) *)

Definition is_auth_notice (line : string) : bool :=
  Py.contains "NOTICE" line &&
  (Py.contains "authentication failed" line
   || Py.contains "Login unsuccessful" line).

Definition process_irc_line (debug : bool) (line : string) (st : state) : state :=
  let st := if debug && Py.truthy line
            then emit (SetLabel (LblDebug (Py.slice line 0 60))) st else st in
  if Py.startswith "PING" line then emit SendPong st
  else if is_auth_notice line then emit (SetLabel LblAuthFailed) st
  else
    let st := if Py.contains ":tmi.twitch.tv 001" line
              then emit (SetLabel LblConnectedAs) st else st in
    if Py.contains ("PRIVMSG #" ++ auto_channel st ++ " :") line then
      match handle_privmsg line with
      | Returned (Some e) => emit (Display e) st
      | _ => st
      end
    else st.

(** *** [_irc_connect_loop] *)

(** [line, buf = buf.split("\r\n", 1)], when ["\r\n" in buf]. *)
Fixpoint cut_line (buf : string) : option (string * string) :=
  match buf with
  | EmptyString => None
  | String c rest =>
      if Py.startswith (String "013" (String "010" EmptyString)) buf
      then Some (EmptyString, Py.drop 1 rest)
      else '(l, r) ← cut_line rest; Some (String c l, r)
  end.

(** The inner [while "\r\n" in buf]; every turn shortens [buf], so
    [String.length buf] turns are enough. *)
Fixpoint drain (fuel : nat) (buf : string) : list string * string :=
  match fuel with
  | O => ([], buf)
  | S fuel' =>
      match cut_line buf with
      | Some (l, r) => let '(ls, r') := drain fuel' r in (l :: ls, r')
      | None => ([], buf)
      end
  end.

(** What the environment does while the loop thread is blocked, and
    what the other threads do. *)
Inductive event :=
| StartRequested (token : string) (valid : bool)
                           (* [_start_chat_irc]; [valid] is [validate_token(token)] *)
| StopRequested            (* [_stop_chat_irc] *)
| UserInfoMissing          (* [helix/users] gives no data *)
| ConnectError             (* an exception up to [sock.connect] *)
| ConnectOk (handshake_ok : bool)
                           (* [sock.connect] returns; do the sends succeed *)
| Recv (data : string)     (* [sock.recv] returns [data] *)
| Timeout (ping_ok : bool) (* [socket.timeout]; does the ping get sent *)
| ReadError                (* another exception in the read loop *)
| WaitOver                 (* [tw_stop_event.wait] returns *)
| UiRun (debug : bool).    (* the main thread runs the oldest pending line *)

(** The top of [while not g["tw_stop_event"].is_set()]. *)
Definition loop_head (st : state) : state :=
  if tw_stop st then set_pc Idle (set_tw_state Disconnected st)
  else set_pc AtConnect
         (set_tw_state (if tw_backoff st =? 2 then Connecting else Reconnecting) st).

(** From the [finally] clause to the end of the loop body. *)
Definition after_attempt (st : state) : state :=
  let st := set_socket false st in
  if tw_stop st then set_pc Idle (set_tw_state Disconnected st)
  else
    let backoff := tw_backoff st in
    set_pc Waiting
      (emit (Wait backoff)
         (emit (SetLabel (LblReconnectingIn backoff))
            (set_tw_state Reconnecting st))).

(** The guard of the read loop. *)
Definition read_guard (buf : string) (st : state) : state :=
  if tw_stop st then after_attempt st else set_pc (Reading buf) st.

(** [_start_chat_irc], and [_irc_connect_loop] up to its [while]:
    [token] is the text of the token box and [valid] is
    [validate_token(token)]. *)
Definition start_chat_irc (token : string) (valid : bool) (st : state) : state :=
  match tw_state st with
  | Connected | Connecting | Reconnecting => st
  | _ =>
      let st := emit Spawn (set_backoff 2 (set_stop false st)) in
      if negb (Py.truthy (Py.strip token)) then emit (SetLabel LblNoToken) st
      else if negb valid then set_tw_state Failed st
      else loop_head st
  end.

(** [_stop_chat_irc] *)
Definition stop_chat_irc (st : state) : state :=
  emit (SetLabel LblDisconnected)
    (set_tw_state Disconnected (set_socket false (set_stop true st))).

(** One event of [_irc_connect_loop] and of the threads around it. An
    event that the loop thread cannot meet where it is blocked changes
    nothing. [_start_chat_irc] tests [g["tw_state"]] only; a start
    requested while the thread of an earlier start is still alive (two
    loop threads at once) is left out of the model, so a start acts only
    when no loop thread runs. *)
Definition step (st : state) (ev : event) : state :=
  match ev, at_pc st with
  | StartRequested token valid, Idle => start_chat_irc token valid st
  | StopRequested, _ => stop_chat_irc st
  | UserInfoMissing, AtConnect =>
      set_pc Idle (set_socket false (set_tw_state Failed st))
  | ConnectError, AtConnect => after_attempt st
  | ConnectOk handshake_ok, AtConnect =>
      let st := set_backoff 2
                  (set_socket true (set_timeout 30 (emit SockConnected st))) in
      if handshake_ok then read_guard EmptyString (set_tw_state Connected st)
      else after_attempt st
  | Recv data, Reading buf =>
      if negb (Py.truthy data) then after_attempt st
      else
        let '(lines, buf') := drain (String.length (buf ++ data)) (buf ++ data) in
        read_guard buf' (set_pending (ui_pending st ++ lines) st)
  | Timeout ping_ok, Reading buf =>
      if ping_ok then read_guard buf (emit SendPing st) else after_attempt st
  | ReadError, Reading _ => after_attempt st
  | WaitOver, Waiting =>
      loop_head (set_backoff (Z.min (tw_backoff st * 2) 60) st)
  | UiRun debug, _ =>
      match ui_pending st with
      | line :: rest => process_irc_line debug line (set_pending rest st)
      | [] => st
      end
  | _, _ => st
  end.

Definition run (st : state) (evs : list event) : state := foldl step st evs.

(** The waits since the loop was started or [sock.connect] last
    returned, newest first. *)
Fixpoint recent_waits (tr : list effect) : list Z :=
  match tr with
  | [] => []
  | Wait d :: tr' => d :: recent_waits tr'
  | Spawn :: _ | SockConnected :: _ => []
  | _ :: tr' => recent_waits tr'
  end.

(** The [k]-th delay of the backoff sequence 2, 4, 8, 16, 32, 60, 60, ... *)
Definition delay_seq (k : nat) : Z := Z.min (2 ^ Z.of_nat (S k)) 60.

End Irc.

(** ** The YouTube live-chat client: [_poll_yt_chat], [_stop_yt_chat],
       [_start_yt_watcher], and the queue of [self.ui] *)

Module Yt.

(** The functions given to [root.after]. *)
Inductive callback := PollYtChat | StartYtWatcher.

(** The SYSTEM messages of the YouTube side. *)
Inductive notice := StreamEnded | ChatDisconnected.

Inductive label := LblRateLimited.

(** The functions given to [self.ui]. *)
Inductive ui_task :=
| TStopYtChat
| TStartYtWatcher
| TPollYtChat
| TSystem (n : notice)
| TAppend (user msg : string)
| TSetState (s : Irc.conn_state)
| TLabel (l : label).

(** What [liveChatMessages().list(...)] is called with. *)
Record request := {
  liveChatId : option string;
  pageToken : option string
}.

Record item := {
  displayMessage : option string;   (* [snippet.get("displayMessage")] *)
  displayName : option string       (* [authorDetails.get("displayName")] *)
}.

Record response := {
  nextPageToken : option string;
  pollingIntervalMillis : option Z;
  items : list item
}.

(** What [execute()] does. *)
Inductive answer :=
| ListRaised (err_str : string)     (* raises; [err_str] is [str(ex)] *)
| ListOk (resp : response).

(** Calls that leave the client, newest first. *)
Inductive effect :=
| LaunchFetch                       (* the [_fetch] thread is started *)
| LaunchCheck                       (* the [_check] thread of the watcher is started *)
| ListMessages (r : request)
| SystemMsg (n : notice)
| ChatMsg (user msg : string)
| StatusLabel (l : label).

Record state := {
  yt_service : bool;                (* [g["yt_service"]] is set *)
  yt_live_chat_id : option string;
  yt_next_page : option string;
  yt_polling : bool;
  yt_watching : bool;
  yt_poll_job : option nat;
  yt_stop : bool;                   (* [g["yt_stop_event"].is_set()] *)
  yt_state : Irc.conn_state;
  timers : list (nat * (Z * callback));   (* pending [root.after]: id, delay in ms, callback *)
  next_timer : nat;
  ui_queue : list ui_task;          (* oldest first *)
  trace : list effect
}.

Definition with_cursor (c : option string) (st : state) : state :=
  {| yt_service := yt_service st; yt_live_chat_id := yt_live_chat_id st;
     yt_next_page := c; yt_polling := yt_polling st;
     yt_watching := yt_watching st; yt_poll_job := yt_poll_job st;
     yt_stop := yt_stop st; yt_state := yt_state st; timers := timers st;
     next_timer := next_timer st; ui_queue := ui_queue st; trace := trace st |}.

Definition with_watching (b : bool) (st : state) : state :=
  {| yt_service := yt_service st; yt_live_chat_id := yt_live_chat_id st;
     yt_next_page := yt_next_page st; yt_polling := yt_polling st;
     yt_watching := b; yt_poll_job := yt_poll_job st;
     yt_stop := yt_stop st; yt_state := yt_state st; timers := timers st;
     next_timer := next_timer st; ui_queue := ui_queue st; trace := trace st |}.

(** [_set_yt_state] *)
Definition set_yt_state (s : Irc.conn_state) (st : state) : state :=
  {| yt_service := yt_service st; yt_live_chat_id := yt_live_chat_id st;
     yt_next_page := yt_next_page st; yt_polling := yt_polling st;
     yt_watching := yt_watching st; yt_poll_job := yt_poll_job st;
     yt_stop := yt_stop st; yt_state := s; timers := timers st;
     next_timer := next_timer st; ui_queue := ui_queue st; trace := trace st |}.

Definition with_queue (q : list ui_task) (st : state) : state :=
  {| yt_service := yt_service st; yt_live_chat_id := yt_live_chat_id st;
     yt_next_page := yt_next_page st; yt_polling := yt_polling st;
     yt_watching := yt_watching st; yt_poll_job := yt_poll_job st;
     yt_stop := yt_stop st; yt_state := yt_state st; timers := timers st;
     next_timer := next_timer st; ui_queue := q; trace := trace st |}.

Definition emit (e : effect) (st : state) : state :=
  {| yt_service := yt_service st; yt_live_chat_id := yt_live_chat_id st;
     yt_next_page := yt_next_page st; yt_polling := yt_polling st;
     yt_watching := yt_watching st; yt_poll_job := yt_poll_job st;
     yt_stop := yt_stop st; yt_state := yt_state st; timers := timers st;
     next_timer := next_timer st; ui_queue := ui_queue st;
     trace := e :: trace st |}.

(** [self.ui(task)] *)
Definition ui (t : ui_task) (st : state) : state :=
  with_queue (ui_queue st ++ [t]) st.

(** [g["yt_poll_job"] = self.root.after(ms, self._poll_yt_chat)] *)
Definition schedule_poll (ms : Z) (st : state) : state :=
  {| yt_service := yt_service st; yt_live_chat_id := yt_live_chat_id st;
     yt_next_page := yt_next_page st; yt_polling := yt_polling st;
     yt_watching := yt_watching st; yt_poll_job := Some (next_timer st);
     yt_stop := yt_stop st; yt_state := yt_state st;
     timers := timers st ++ [(next_timer st, (ms, PollYtChat))];
     next_timer := S (next_timer st); ui_queue := ui_queue st;
     trace := trace st |}.

(** [_stop_yt_chat] *)
Definition stop_yt_chat (st : state) : state :=
  emit (SystemMsg ChatDisconnected)
    {| yt_service := yt_service st; yt_live_chat_id := None;
       yt_next_page := yt_next_page st; yt_polling := false;
       yt_watching := yt_watching st; yt_poll_job := None;
       yt_stop := true; yt_state := yt_state st;
       timers := match yt_poll_job st with
                 | Some j => filter (λ t, t.1 ≠ j) (timers st)
                 | None => timers st
                 end;
       next_timer := next_timer st; ui_queue := ui_queue st;
       trace := trace st |}.

(** [_start_yt_watcher], up to the start of its [_check] thread. *)
Definition start_yt_watcher (st : state) : state :=
  if yt_watching st then st
  else if yt_polling st || yt_stop st then st
  else emit LaunchCheck (with_watching true st).

(** The guards of [_poll_yt_chat]: is the [_fetch] thread started. *)
Definition poll_guard (st : state) : bool :=
  yt_polling st && Py.truthy_opt (yt_live_chat_id st) && negb (yt_stop st).

(** [_poll_yt_chat] *)
Definition poll_yt_chat (st : state) : state :=
  if poll_guard st then emit LaunchFetch st else st.

(** The arguments that [_fetch] builds from [g]. *)
Definition request_of (st : state) : request :=
  {| liveChatId := yt_live_chat_id st;
     pageToken := if Py.truthy_opt (yt_next_page st) then yt_next_page st else None |}.

(** The three classes of the [except] clause, tested in this order. *)
Inductive error_class := SessionEnded | RateLimited | Transient.

Definition classify (err_str : string) : error_class :=
  let low := Py.lower err_str in
  if Py.contains "liveChatEnded" err_str || Py.contains "notFound" err_str
     || Py.contains "404" err_str
     || (Py.contains "403" err_str
         && negb (Py.contains "quota" low) && negb (Py.contains "rate" low))
  then SessionEnded
  else if Py.contains "quotaExceeded" err_str
          || Py.contains "rateLimitExceeded" err_str
          || Py.contains "429" err_str
          || (Py.contains "403" err_str && Py.contains "quota" low)
  then RateLimited
  else Transient.

(** The [except] clause of [_fetch]. *)
Definition handle_error (err_str : string) (st : state) : state :=
  match classify err_str with
  | SessionEnded =>
      ui TStartYtWatcher (ui (TSystem StreamEnded) (ui TStopYtChat st))
  | RateLimited =>
      let st := ui (TLabel LblRateLimited) (ui (TSetState Irc.Reconnecting) st) in
      if yt_polling st then schedule_poll 300000 st else st
  | Transient =>
      if yt_polling st then schedule_poll 15000 st else st
  end.

(** [str(ex)] of the [NameError] that the call of [log_chat] in the
    item loop raises: its argument reads [t], [u] and [m], which are
    parameters of the lambda on the line before and are bound neither
    in [_fetch] nor in the module. *)
Definition name_error_t : string := "name 't' is not defined".

(** The [for item in items] loop: the new state, and whether the loop
    ran to its end ([false]: the [NameError] was raised). *)
Fixpoint item_loop (log_var : bool) (its : list item) (st : state) : state * bool :=
  match its with
  | [] => (st, true)
  | it :: rest =>
      let st := ui (TAppend (default "unknown"%string (displayName it))
                            (default EmptyString (displayMessage it))) st in
      if log_var then (st, false) else item_loop log_var rest st
  end.

(** The body of the [_fetch] thread; [log_var] is [self.log_var.get()]
    and [a] is what the request does. *)
Definition fetch (log_var : bool) (a : answer) (st : state) : state :=
  let st := emit (ListMessages (request_of st)) st in
  match a with
  | ListRaised err_str => handle_error err_str st
  | ListOk resp =>
      let st := with_cursor (nextPageToken resp) st in
      let interval := Z.max 5000 (default 5000 (pollingIntervalMillis resp)) in
      match item_loop log_var (items resp) st with
      | (st, true) =>
          if yt_polling st && negb (yt_stop st)
          then schedule_poll interval st else st
      | (st, false) => handle_error name_error_t st
      end
  end.

(** One task of the queue, run on the main thread. *)
Definition run_task (st : state) (t : ui_task) : state :=
  match t with
  | TStopYtChat => stop_yt_chat st
  | TStartYtWatcher => start_yt_watcher st
  | TPollYtChat => poll_yt_chat st
  | TSystem n => emit (SystemMsg n) st
  | TAppend u m => emit (ChatMsg u m) st
  | TSetState s => set_yt_state s st
  | TLabel l => emit (StatusLabel l) st
  end.

(** [_process_ui_queue]: the tasks are run oldest first. None of them
    calls [self.ui] on the main thread, so one pass empties the queue. *)
Definition process_ui_queue (st : state) : state :=
  foldl run_task (with_queue [] st) (ui_queue st).

(** A timer fires: it leaves the pending list and its callback runs. *)
Definition fire (id : nat) (st : state) : state :=
  match list_find (λ t, t.1 = id) (timers st) with
  | Some (_, (_, (_, cb))) =>
      let st' :=
        {| yt_service := yt_service st; yt_live_chat_id := yt_live_chat_id st;
           yt_next_page := yt_next_page st; yt_polling := yt_polling st;
           yt_watching := yt_watching st; yt_poll_job := yt_poll_job st;
           yt_stop := yt_stop st; yt_state := yt_state st;
           timers := filter (λ t, t.1 ≠ id) (timers st);
           next_timer := next_timer st; ui_queue := ui_queue st;
           trace := trace st |} in
      match cb with
      | PollYtChat => poll_yt_chat st'
      | StartYtWatcher => start_yt_watcher st'
      end
  | None => st
  end.

Fixpoint count_launch_check (tr : list effect) : nat :=
  match tr with
  | [] => O
  | LaunchCheck :: tr' => S (count_launch_check tr')
  | _ :: tr' => count_launch_check tr'
  end.

Fixpoint count_launch_fetch (tr : list effect) : nat :=
  match tr with
  | [] => O
  | LaunchFetch :: tr' => S (count_launch_fetch tr')
  | _ :: tr' => count_launch_fetch tr'
  end.

End Yt.

(** ** The lurker refresh: [_do_lurker_refresh], [play_lurk_notify] *)

Module Lurkers.

(** A value of [g["session_lurkers"]]. *)
Record session := { joined : Z; is_live : bool }.

(** A row of the chatters response. *)
Record chatter := { user_id : string; user_name : string }.

(** An element of the lists [longest] and [recent]. *)
Record entry := { name : string; entry_joined : Z; entry_is_live : bool }.

(** Calls that leave the tracker, newest first. [LurkNotify] is the
    call [play_lurk_notify()], tagged with the name being handled when
    it is made and with whether [play_sound] is reached. *)
Inductive effect :=
| LogLurker (un : string)
| LurkNotify (un : string) (played : bool).

Record state := {
  session_lurkers : gmap string session;
  known_lurkers : gset string;
  last_sound_time : Z;
  trace : list effect
}.

(** A fresh process; datetimes count microseconds from [datetime.min]. *)
Definition init : state :=
  {| session_lurkers := ∅; known_lurkers := ∅; last_sound_time := 0;
     trace := [] |}.

Definition sound_cooldown_seconds : Z := 5.

(** [td.total_seconds() >= n] for an integer [n]: the difference of two
    datetimes is a whole number of microseconds. *)
Definition at_least_seconds (n : Z) (td : Z) : bool := n * 1000000 <=? td.

(** [play_lurk_notify()], called at clock reading [t]. *)
Definition play_lurk_notify (un : string) (t : Z) (st : state) : state :=
  if at_least_seconds sound_cooldown_seconds (t - last_sound_time st) then
    {| session_lurkers := session_lurkers st;
       known_lurkers := known_lurkers st;
       last_sound_time := t;
       trace := LurkNotify un true :: trace st |}
  else
    {| session_lurkers := session_lurkers st;
       known_lurkers := known_lurkers st;
       last_sound_time := last_sound_time st;
       trace := LurkNotify un false :: trace st |}.

(** The branch [un not in g["session_lurkers"]] after the new record
    is stored. *)
Definition first_sighting (un : string) (t : Z) (st : state) : state :=
  if decide (un ∈ known_lurkers st) then st
  else
    play_lurk_notify un t
      {| session_lurkers := session_lurkers st;
         known_lurkers := {[un]} ∪ known_lurkers st;
         last_sound_time := last_sound_time st;
         trace := LogLurker un :: trace st |}.

Definition store (un : string) (s : session) (st : state) : state :=
  {| session_lurkers := <[un := s]> (session_lurkers st);
     known_lurkers := known_lurkers st;
     last_sound_time := last_sound_time st;
     trace := trace st |}.

(** The accumulator of the loop over the chatters: the state, the two
    lists, and the number of rows handled. *)
Definition acc : Type := state * list entry * list entry * nat.

(** One turn of [for c in chatters["data"]]. [clk i] is what the clock
    shows if [play_lurk_notify] is called for row [i]. The record that
    [g["session_lurkers"][un]] holds after the [if] is [s']. *)
Definition refresh_one (now : Z) (live_ids : gset string) (clk : nat → Z)
    (a : acc) (c : chatter) : acc :=
  let '(st, longest, recent, i) := a in
  let un := user_name c in
  let live := bool_decide (user_id c ∈ live_ids) in
  let '(st, s') :=
    match session_lurkers st !! un with
    | None =>
        let s := {| joined := now; is_live := live |} in
        (first_sighting un (clk i) (store un s st), s)
    | Some s =>
        let s := {| joined := joined s; is_live := live |} in
        (store un s st, s)
    end in
  let e := {| name := un; entry_joined := joined s'; entry_is_live := live |} in
  if at_least_seconds 300 (now - entry_joined e)
  then (st, longest ++ [e], recent, S i)
  else (st, longest, recent ++ [e], S i).

(** [_do_lurker_refresh]; [chatters] is [None] when the request fails
    or carries no [data]. The result has the lists handed to the UI. *)
Definition do_lurker_refresh (now : Z) (chatters : option (list chatter))
    (live_ids : gset string) (clk : nat → Z) (st : state)
  : state * option (list entry * list entry) :=
  match chatters with
  | None | Some [] => (st, None)
  | Some cs =>
      let '(st', longest, recent, _) :=
        foldl (refresh_one now live_ids clk) (st, [], [], O) cs in
      (st', Some (longest, recent))
  end.

(** What happens to the tracker's state over the life of the process. *)
Inductive event :=
| Refresh (now : Z) (chatters : option (list chatter))
          (live_ids : gset string) (clk : nat → Z)
| OtherSound (t : Z).      (* the chat cue sets [g["last_sound_time"]] *)

Definition step (st : state) (ev : event) : state :=
  match ev with
  | Refresh now chatters live_ids clk =>
      (do_lurker_refresh now chatters live_ids clk st).1
  | OtherSound t =>
      {| session_lurkers := session_lurkers st;
         known_lurkers := known_lurkers st;
         last_sound_time := t;
         trace := trace st |}
  end.

Definition run (st : state) (evs : list event) : state := foldl step st evs.

Fixpoint count_log (un : string) (tr : list effect) : nat :=
  match tr with
  | [] => O
  | LogLurker u :: tr' =>
      if decide (u = un) then S (count_log un tr') else count_log un tr'
  | _ :: tr' => count_log un tr'
  end.

Fixpoint count_notify (un : string) (tr : list effect) : nat :=
  match tr with
  | [] => O
  | LurkNotify u _ :: tr' =>
      if decide (u = un) then S (count_notify un tr') else count_notify un tr'
  | _ :: tr' => count_notify un tr'
  end.

(** How often the audible cue was played for [un]. *)
Fixpoint count_cue (un : string) (tr : list effect) : nat :=
  match tr with
  | [] => O
  | LurkNotify u true :: tr' =>
      if decide (u = un) then S (count_cue un tr') else count_cue un tr'
  | _ :: tr' => count_cue un tr'
  end.

End Lurkers.

(** ** The send operation: [_send_chat_message] *)

Module Send.

(** [SEND_TARGET] *)
Inductive target := Twitch | YouTube | All.

(** Calls that leave the function, newest first. *)
Inductive effect :=
| WarnTwitchNotConnected
| SockSend (message : string)         (* [g["chat_socket"].sendall(...)] *)
| ErrTwitchSendFailed
| AppendOwn (message : string)
| WarnYouTubeNotConnected
| LaunchYtSend (message : string)
| LogSent (message : string).

Record state := {
  last_send_time : option Q;          (* [None]: the attribute does not exist *)
  chat_message_box : string;
  send_target : target;
  chat_socket : bool;
  yt_ready : bool;                    (* [g["yt_service"]] and [g["yt_live_chat_id"]] *)
  log_var : bool;
  trace : list effect
}.

Definition emit (e : effect) (st : state) : state :=
  {| last_send_time := last_send_time st;
     chat_message_box := chat_message_box st;
     send_target := send_target st; chat_socket := chat_socket st;
     yt_ready := yt_ready st; log_var := log_var st;
     trace := e :: trace st |}.

Definition set_last (t : Q) (st : state) : state :=
  {| last_send_time := Some t;
     chat_message_box := chat_message_box st;
     send_target := send_target st; chat_socket := chat_socket st;
     yt_ready := yt_ready st; log_var := log_var st;
     trace := trace st |}.

Definition clear_box (st : state) : state :=
  {| last_send_time := last_send_time st;
     chat_message_box := EmptyString;
     send_target := send_target st; chat_socket := chat_socket st;
     yt_ready := yt_ready st; log_var := log_var st;
     trace := trace st |}.

Definition Qltb (x y : Q) : bool := negb (Qle_bool y x).

(** The guard: the attribute exists and [now_time] is less than 1.5
    seconds after it. *)
Definition bounce (now_time : Q) (st : state) : bool :=
  match last_send_time st with
  | Some last => Qltb (now_time - last)%Q (3 # 2)%Q
  | None => false
  end.

(** The Twitch part: the new state, [sent_any], and whether the
    function returns here. *)
Definition send_twitch (send_ok : bool) (message : string) (st : state)
  : state * bool * bool :=
  match send_target st with
  | YouTube => (st, false, false)
  | tgt =>
      let only := match tgt with Twitch => true | _ => false end in
      if negb (chat_socket st) then (emit WarnTwitchNotConnected st, false, only)
      else if send_ok
      then (emit (AppendOwn message) (emit (SockSend message) st), true, false)
      else (emit ErrTwitchSendFailed (emit (SockSend message) st), false, only)
  end.

Definition send_youtube (message : string) (sent_any : bool) (st : state)
  : state * bool * bool :=
  match send_target st with
  | Twitch => (st, sent_any, false)
  | tgt =>
      let only := match tgt with YouTube => true | _ => false end in
      if negb (yt_ready st) then (emit WarnYouTubeNotConnected st, sent_any, only)
      else (emit (LaunchYtSend message) st, true, false)
  end.

(** [_send_chat_message], called when [time.time()] is [now_time];
    [send_ok] tells whether [sendall] succeeds if it is called. *)
Definition send_chat_message (now_time : Q) (send_ok : bool) (st : state) : state :=
  if bounce now_time st then st
  else
    let st := set_last now_time st in
    let message := Py.strip (chat_message_box st) in
    if negb (Py.truthy message) then st
    else
      let '(st, sent_any, ret) := send_twitch send_ok message st in
      if ret then st
      else
        let '(st, sent_any, ret) := send_youtube message sent_any st in
        if ret then st
        else if sent_any then
          clear_box (if log_var st then emit (LogSent message) st else st)
        else st.

End Send.


(** ** Properties named in the statements below *)




(** A descriptor entry in the words of the specification: an id, a
    colon, and a first range [start-end] whose two bounds are integers. *)
Definition entry_range (entry eid : string) (s e : Z) : Prop :=
  Py.contains ":" entry = true
  ∧ ∃ ranges rng,
      Py.splitn ":" entry 1 = [eid; ranges]
      ∧ rng = Py.split "-" (hd EmptyString (Py.split "," ranges))
      ∧ rng !! 0%nat ≫= Py.int = Some s
      ∧ rng !! 1%nat ≫= Py.int = Some e.

(** The range lies in the body: [0 <= start <= end < len(body)]. *)
Definition in_body (msg : string) (s e : Z) : Prop :=
  0 <= s ∧ s <= e ∧ e < Py.len msg.

(** A client that found a session and is polling it, with [cursor] as
    the page token it holds. *)
Definition yt_polling_state (cursor : option string) : Yt.state :=
  {| Yt.yt_service := true; Yt.yt_live_chat_id := Some "chat-1"%string;
     Yt.yt_next_page := cursor; Yt.yt_polling := true;
     Yt.yt_watching := false; Yt.yt_poll_job := None; Yt.yt_stop := false;
     Yt.yt_state := Irc.Connected; Yt.timers := []; Yt.next_timer := O;
     Yt.ui_queue := []; Yt.trace := [] |}.

(** The lists under construction: every entry sits in the list its
    dwell time asks for, and carries the [joined] of the registry. *)
Definition buckets_ok (now : Z) (a : Lurkers.acc) : Prop :=
  (∀ e, e ∈ a.1.1.2 → 300 * 1000000 <= now - Lurkers.entry_joined e)
  ∧ (∀ e, e ∈ a.1.2 → now - Lurkers.entry_joined e < 300 * 1000000)
  ∧ (∀ e, e ∈ a.1.1.2 ++ a.1.2 →
       ∃ s, Lurkers.session_lurkers a.1.1.1 !! Lurkers.name e = Some s
            ∧ Lurkers.joined s = Lurkers.entry_joined e).

(** The names that have appeared in a snapshot that was processed. *)
Fixpoint appeared (evs : list Lurkers.event) : gset string :=
  match evs with
  | [] => ∅
  | Lurkers.Refresh _ (Some cs) _ _ :: evs' =>
      list_to_set (map Lurkers.user_name cs) ∪ appeared evs'
  | _ :: evs' => appeared evs'
  end.

(** The registry and the counts of the notifications agree with the set
    of known names. *)
Definition sightings_inv (st : Lurkers.state) : Prop :=
  Lurkers.known_lurkers st = dom (Lurkers.session_lurkers st)
  ∧ ∀ un,
      Lurkers.count_log un (Lurkers.trace st)
      = (if decide (un ∈ Lurkers.known_lurkers st) then 1 else 0)%nat
      ∧ Lurkers.count_notify un (Lurkers.trace st)
        = Lurkers.count_log un (Lurkers.trace st)
      ∧ (Lurkers.count_cue un (Lurkers.trace st)
         <= Lurkers.count_notify un (Lurkers.trace st))%nat.

(** The user types [text] into the input box. *)
Definition type_text (text : string) (st : Send.state) : Send.state :=
  {| Send.last_send_time := Send.last_send_time st;
     Send.chat_message_box := text;
     Send.send_target := Send.send_target st;
     Send.chat_socket := Send.chat_socket st;
     Send.yt_ready := Send.yt_ready st; Send.log_var := Send.log_var st;
     Send.trace := Send.trace st |}.

(** A fresh window connected to Twitch chat, nothing sent yet. *)
Definition send_ready : Send.state :=
  {| Send.last_send_time := None; Send.chat_message_box := EmptyString;
     Send.send_target := Send.Twitch; Send.chat_socket := true;
     Send.yt_ready := false; Send.log_var := false; Send.trace := [] |}.

(** ** The message-id store of [_handle_privmsg] *)

Module MsgIds.

(** [store = g["msg_id_store"].setdefault(user.lower(), [])],
    [store.append(msg_id)], and [store.pop(0)] when more than 20 ids are
    held; all under [if msg_id and user]. *)
Definition store_msg_id (msg_id user : string)
    (store : gmap string (list string)) : gmap string (list string) :=
  if Py.truthy msg_id && Py.truthy user then
    let key := Py.lower user in
    let l := default [] (store !! key) ++ [msg_id] in
    <[key := if (20 <? length l)%nat then drop 1 l else l]> store
  else store.

(** The tags [id] and [display-name] of a tagged line, as
    [_handle_privmsg] reads them before it stores the id. *)
Definition tagged_ids (line : string) : string * string :=
  let d := Irc.tags_of (hd EmptyString (Py.splitn " " line 2)) in
  (default EmptyString (d !! "id"%string),
   default EmptyString (d !! "display-name"%string)).

(** What [_handle_privmsg] does to the store for one line. *)
Definition record_line (store : gmap string (list string)) (line : string)
  : gmap string (list string) :=
  if Py.startswith "@" line
  then store_msg_id (tagged_ids line).1 (tagged_ids line).2 store
  else store.

(** The ids that the lines carry for the users whose lower-cased name
    is [key], oldest first. *)
Fixpoint ids_for (key : string) (lines : list string) : list string :=
  match lines with
  | [] => []
  | line :: rest =>
      let '(msg_id, user) := tagged_ids line in
      if Py.startswith "@" line && Py.truthy msg_id && Py.truthy user
         && bool_decide (Py.lower user = key)
      then msg_id :: ids_for key rest else ids_for key rest
  end.

(** The last 20 elements. *)
Definition last_20 (l : list string) : list string := drop (length l - 20) l.

End MsgIds.

(** ** Moderation: [_send_irc_command], [_mute_user], [_unmute_user],
       [_ctx_clear_messages] *)

Module Moderation.

(** The SYSTEM messages of these functions. *)
Inductive notice :=
| NotConnected
| Muted (username : string)
| Unmuted (username : string)
| ClearedWithFallback (local : nat)        (* "used timeout fallback" *)
| DeletedOnTwitch (deleted local : nat)
| ClearedTimeoutUsed (local : nat)         (* "timeout used to wipe Twitch chat" *)
| ClearedNoRecent (local : nat).           (* "no recent messages to delete" *)

(** Calls that leave the functions, newest first. *)
Inductive effect :=
| SockSend (text : string)                 (* [g["irc_sock"].sendall] *)
| Append (n : notice)                      (* [_append_chat_message], called directly *)
| Ui (n : notice)                          (* the same, given to [self.ui] *)
| DeleteRequest (message_id : string)      (* [requests.delete] *)
| PersistMutes (l : list string).          (* [db_set_mute_list] *)

Record state := {
  irc_sock : bool;                         (* [g["irc_sock"]] holds a socket *)
  auto_channel : string;
  my_id : option string;
  token : string;
  msg_id_store : gmap string (list string);
  mute_list : list string;                 (* [MUTE_LIST] *)
  chat_lines : list string;                (* the lines of the chat widget *)
  trace : list effect
}.

Definition emit (e : effect) (st : state) : state :=
  {| irc_sock := irc_sock st; auto_channel := auto_channel st;
     my_id := my_id st; token := token st; msg_id_store := msg_id_store st;
     mute_list := mute_list st; chat_lines := chat_lines st;
     trace := e :: trace st |}.

Definition set_store (s : gmap string (list string)) (st : state) : state :=
  {| irc_sock := irc_sock st; auto_channel := auto_channel st;
     my_id := my_id st; token := token st; msg_id_store := s;
     mute_list := mute_list st; chat_lines := chat_lines st;
     trace := trace st |}.

Definition set_mutes (l : list string) (st : state) : state :=
  {| irc_sock := irc_sock st; auto_channel := auto_channel st;
     my_id := my_id st; token := token st; msg_id_store := msg_id_store st;
     mute_list := l; chat_lines := chat_lines st; trace := trace st |}.

Definition set_lines (l : list string) (st : state) : state :=
  {| irc_sock := irc_sock st; auto_channel := auto_channel st;
     my_id := my_id st; token := token st; msg_id_store := msg_id_store st;
     mute_list := mute_list st; chat_lines := l; trace := trace st |}.

(** The text that [_send_irc_command] writes for [command]. *)
Definition privmsg_text (channel command : string) : string :=
  "PRIVMSG #" ++ channel ++ " :" ++ command
  ++ String "013" (String "010" EmptyString).

(** [_send_irc_command]; [send_ok] tells whether [sendall] succeeds if
    it is called (its exception is logged and goes no further). *)
Definition send_irc_command (command : string) (send_ok : bool) (st : state) : state :=
  if irc_sock st then
    if send_ok then emit (SockSend (privmsg_text (auto_channel st) command)) st
    else st
  else emit (Append NotConnected) st.

(** [list.remove]: the first occurrence leaves. *)
Fixpoint remove_first (x : string) (l : list string) : list string :=
  match l with
  | [] => []
  | y :: l' => if decide (y = x) then l' else y :: remove_first x l'
  end.

(** [_mute_user] *)
Definition mute_user (username : string) (st : state) : state :=
  if decide (username ∈ mute_list st) then st
  else
    let l := mute_list st ++ [username] in
    emit (Append (Muted username)) (emit (PersistMutes l) (set_mutes l st)).

(** [_unmute_user] *)
Definition unmute_user (username : string) (st : state) : state :=
  if decide (username ∈ mute_list st) then
    let l := remove_first username (mute_list st) in
    emit (Append (Unmuted username)) (emit (PersistMutes l) (set_mutes l st))
  else st.

(** The test of the local wipe: [username.lower() in line_text.lower()]. *)
Definition mentions (username line : string) : bool :=
  Py.contains (Py.lower username) (Py.lower line).

(** The [while] loop of the local wipe, from line number [i] on: the
    numbers of the lines that mention the user. *)
Fixpoint lines_to_delete (username : string) (i : nat) (lines : list string)
  : list nat :=
  match lines with
  | [] => []
  | line :: rest =>
      if mentions username line
      then i :: lines_to_delete username (S i) rest
      else lines_to_delete username (S i) rest
  end.

(** [chat_text.delete(f"{ln}.0", f"{ln+1}.0")]: line [ln], counted
    from 1, leaves. *)
Definition delete_line (lines : list string) (ln : nat) : list string :=
  take (ln - 1) lines ++ drop ln lines.

(** The local wipe of [_ctx_clear_messages]: the lines left, and
    [len(lines_to_delete)]. The widget is taken as the list of its
    lines; the empty line that Tk keeps after the last one mentions no
    user with a name. *)
Definition local_wipe (username : string) (lines : list string)
  : list string * nat :=
  let marked := lines_to_delete username 1 lines in
  (foldl delete_line lines (rev marked), length marked).

(** What a [requests.delete] does. *)
Inductive response :=
| Status (code : Z)
| RequestRaised.

Definition accepted (r : response) : bool :=
  match r with
  | Status code => (code =? 204) || (code =? 200)
  | RequestRaised => false
  end.

(** The [for mid in msg_ids] loop: [resp i] answers the request number
    [i]; the result has the state and the counters [deleted] and
    [failed]. *)
Fixpoint delete_loop (resp : nat → response) (i : nat) (msg_ids : list string)
    (deleted failed : nat) (st : state) : state * nat * nat :=
  match msg_ids with
  | [] => (st, deleted, failed)
  | mid :: rest =>
      let st := emit (DeleteRequest mid) st in
      if accepted (resp i)
      then delete_loop resp (S i) rest (S deleted) failed st
      else delete_loop resp (S i) rest deleted (S failed) st
  end.

(** The [_api_delete] thread of [_ctx_clear_messages]; [local] is
    [len(lines_to_delete)]. *)
Definition api_delete (username : string) (local : nat) (send_ok : bool)
    (resp : nat → response) (st : state) : state :=
  let key := Py.lower username in
  let msg_ids := default [] (msg_id_store st !! key) in
  if negb (Py.truthy_opt (my_id st)) || negb (Py.truthy (Py.strip (token st)))
     || negb (bool_decide (msg_ids ≠ []))
  then
    emit (Ui (ClearedWithFallback local))
      (send_irc_command ("/timeout " ++ username ++ " 1") send_ok st)
  else
    let '(st, deleted, failed) := delete_loop resp O msg_ids O O st in
    let st := set_store (delete key (msg_id_store st)) st in
    if (0 <? deleted)%nat then emit (Ui (DeletedOnTwitch deleted local)) st
    else if (0 <? failed)%nat then
      emit (Ui (ClearedTimeoutUsed local))
        (send_irc_command ("/timeout " ++ username ++ " 1") send_ok st)
    else emit (Ui (ClearedNoRecent local)) st.

(** [_ctx_clear_messages]: the local wipe, then the thread. *)
Definition ctx_clear_messages (username : string) (send_ok : bool)
    (resp : nat → response) (st : state) : state :=
  let '(lines, local) := local_wipe username (chat_lines st) in
  api_delete username local send_ok resp (set_lines lines st).

(** The notices given to [self.ui], newest first. *)
Fixpoint queued (tr : list effect) : list notice :=
  match tr with
  | [] => []
  | Ui n :: tr' => n :: queued tr'
  | _ :: tr' => queued tr'
  end.

(** The texts written to the socket, newest first. *)
Fixpoint sent (tr : list effect) : list string :=
  match tr with
  | [] => []
  | SockSend t :: tr' => t :: sent tr'
  | _ :: tr' => sent tr'
  end.

(** The message ids of the delete requests, newest first. *)
Fixpoint requested (tr : list effect) : list string :=
  match tr with
  | [] => []
  | DeleteRequest m :: tr' => m :: requested tr'
  | _ :: tr' => requested tr'
  end.

(** How many of the first [n] requests are accepted. *)
Fixpoint accepted_among (resp : nat → response) (i n : nat) : nat :=
  match n with
  | O => O
  | S n' => (if accepted (resp i) then 1 else 0) + accepted_among resp (S i) n'
  end.

End Moderation.

(** ** The emote image cache: [get_emote_image] *)

Module EmoteCache.

(** [g["emote_image_cache"]]: a dict, so the ids are in the order in
    which they were first stored; a number stands for a [PhotoImage]. *)
Definition cache : Type := list (string * nat).

Fixpoint lookup (emote_id : string) (c : cache) : option nat :=
  match c with
  | [] => None
  | (k, p) :: c' => if decide (k = emote_id) then Some p else lookup emote_id c'
  end.

(** [get_emote_image(emote_id)]; [loaded] is the image that the
    download and [Image.open] give, [None] when one of them fails. *)
Definition get_emote_image (emote_id : string) (loaded : option nat) (c : cache)
  : cache * option nat :=
  match lookup emote_id c with
  | Some p => (c, Some p)
  | None =>
      let c := if (500 <? length c)%nat then drop 1 c else c in
      match loaded with
      | None => (c, None)
      | Some p => (c ++ [(emote_id, p)], Some p)
      end
  end.

(** A sequence of calls, each with its id and what the load gives. *)
Definition run (c : cache) (calls : list (string * option nat)) : cache :=
  foldl (λ c call, (get_emote_image call.1 call.2 c).1) c calls.

End EmoteCache.

(** ** The font size buttons *)

Module Fonts.

Record state := {
  output_font_size : Z;
  lurker_font_size : Z;
  chat_font_size : Z;
  emote_image_cache : EmoteCache.cache;
  next_refresh_time : Z;
  saved : option (Z * Z * Z)   (* the sizes last written by [save_font_sizes]:
                                  lurker, chat, output *)
}.

Inductive button :=
| OutputMinus | OutputPlus | LurkerMinus | LurkerPlus | ChatMinus | ChatPlus.

(** [save_font_sizes] *)
Definition save_font_sizes (st : state) : state :=
  {| output_font_size := output_font_size st;
     lurker_font_size := lurker_font_size st;
     chat_font_size := chat_font_size st;
     emote_image_cache := emote_image_cache st;
     next_refresh_time := next_refresh_time st;
     saved := Some (lurker_font_size st, chat_font_size st, output_font_size st) |}.

Definition set_output (n : Z) (st : state) : state :=
  {| output_font_size := n; lurker_font_size := lurker_font_size st;
     chat_font_size := chat_font_size st;
     emote_image_cache := emote_image_cache st;
     next_refresh_time := next_refresh_time st; saved := saved st |}.

Definition set_lurker (n now : Z) (st : state) : state :=
  {| output_font_size := output_font_size st; lurker_font_size := n;
     chat_font_size := chat_font_size st;
     emote_image_cache := emote_image_cache st;
     next_refresh_time := now; saved := saved st |}.

Definition set_chat (n : Z) (st : state) : state :=
  {| output_font_size := output_font_size st;
     lurker_font_size := lurker_font_size st;
     chat_font_size := n; emote_image_cache := [];
     next_refresh_time := next_refresh_time st; saved := saved st |}.

(** The six handlers [_output_font_minus] ... [_chat_font_plus];
    [now] is the clock when the button is pressed. In the lurker
    handlers the sizes are saved before the refresh time is set; the
    two writes touch different keys. *)
Definition press (now : Z) (st : state) (b : button) : state :=
  match b with
  | OutputMinus =>
      if 8 <? output_font_size st
      then save_font_sizes (set_output (output_font_size st - 1) st) else st
  | OutputPlus =>
      if output_font_size st <? 24
      then save_font_sizes (set_output (output_font_size st + 1) st) else st
  | LurkerMinus =>
      if 8 <? lurker_font_size st
      then save_font_sizes (set_lurker (lurker_font_size st - 1) now st) else st
  | LurkerPlus =>
      if lurker_font_size st <? 24
      then save_font_sizes (set_lurker (lurker_font_size st + 1) now st) else st
  | ChatMinus =>
      if 10 <? chat_font_size st
      then save_font_sizes (set_chat (chat_font_size st - 2) st) else st
  | ChatPlus =>
      if chat_font_size st <? 32
      then save_font_sizes (set_chat (chat_font_size st + 2) st) else st
  end.

End Fonts.

(** ** The word loops of [_append_chat_message] and [_handle_privmsg] *)

Module Render.

(** What the loop of [_append_chat_message] puts into the chat widget
    for one word. *)
Inductive segment :=
| Image (eid : string)          (* the cached image of the emote *)
| EmoteName (clean : string)    (* the text [:clean: ] in the emote style *)
| Text (t : string).            (* the word and its separator *)

(** The loop over [enumerate(words)]: [cached eid] tells whether
    [g["emote_image_cache"].get(eid)] gives an image. The separator
    is a space but for the last word. *)
Fixpoint render_words (emote_map : gmap string string) (cached : string → bool)
    (words : list string) : list segment :=
  match words with
  | [] => []
  | word :: rest =>
      let seg :=
        match emote_map !! Py.strip word with
        | Some eid => if cached eid then Image eid else EmoteName (Py.strip word)
        | None => Text (word ++ match rest with [] => EmptyString | _ => " " end)
        end in
      seg :: render_words emote_map cached rest
  end.

(** The body of a message as [_append_chat_message] renders it. A
    message of more than 500 characters is cut to 497 and closed with
    the character U+2026, which the strings here do not have: the
    result is [None] for it. *)
Definition render_message (emote_map : gmap string string) (cached : string → bool)
    (msg : string) : option (list segment) :=
  if 500 <? Py.len msg then None
  else Some (render_words emote_map cached (Py.split " " msg)).

(** The plain text among the segments, in order. *)
Fixpoint text_of (segs : list segment) : string :=
  match segs with
  | [] => EmptyString
  | Text t :: segs' => (t ++ text_of segs')%string
  | _ :: segs' => text_of segs'
  end.

(** [" ".join(parts)] *)
Fixpoint join_space (parts : list string) : string :=
  match parts with
  | [] => EmptyString
  | [p] => p
  | p :: rest => (p ++ " " ++ join_space rest)%string
  end.

(** The loop of [_handle_privmsg] that builds [log_parts]. *)
Fixpoint log_parts (emote_map : gmap string string) (words : list string)
  : list string :=
  match words with
  | [] => []
  | word :: rest =>
      if negb (Py.truthy word) then log_parts emote_map rest
      else
        (match emote_map !! Py.strip word with
         | Some _ => ("[EMOJI:" ++ Py.strip word ++ "]")%string
         | None => word
         end) :: log_parts emote_map rest
  end.

(** [log_message] of [_handle_privmsg]. *)
Definition log_message (emote_map : gmap string string) (msg : string) : string :=
  join_space (log_parts emote_map (Py.split " " msg)).

End Render.

(** The sizes are within the bounds that the handlers can keep: the
    chat size moves in steps of two, so from an odd size it can reach 9
    and 33. *)
Definition sizes_in_range (st : Fonts.state) : Prop :=
  8 <= Fonts.output_font_size st <= 24
  ∧ 8 <= Fonts.lurker_font_size st <= 24
  ∧ 9 <= Fonts.chat_font_size st <= 33
  ∧ (Z.even (Fonts.chat_font_size st) = true → 10 <= Fonts.chat_font_size st <= 32).

(** The sizes that [save_font_sizes] would write now. *)
Definition sizes_of (st : Fonts.state) : Z * Z * Z :=
  (Fonts.lurker_font_size st, Fonts.chat_font_size st, Fonts.output_font_size st).

(** A sequence of presses of the font buttons, each with the clock at
    the press. *)
Definition press_all (st : Fonts.state) (presses : list (Z * Fonts.button))
  : Fonts.state :=
  foldl (λ s p, Fonts.press p.1 s p.2) st presses.

(** No word of the message is the text of an emote. *)
Definition no_emote_word (emote_map : gmap string string) (msg : string) : Prop :=
  ∀ word, word ∈ Py.split " " msg → emote_map !! Py.strip word = None.

(** ** After a stop *)

(** The events that the IRC loop thread can meet where it is blocked. *)
Definition loop_event (p : Irc.pc) (ev : Irc.event) : bool :=
  match p, ev with
  | Irc.AtConnect, (Irc.UserInfoMissing | Irc.ConnectError | Irc.ConnectOk _) => true
  | Irc.Reading _, (Irc.Recv _ | Irc.Timeout _ | Irc.ReadError) => true
  | Irc.Waiting, Irc.WaitOver => true
  | _, _ => false
  end.

Definition is_start (ev : Irc.event) : bool :=
  match ev with Irc.StartRequested _ _ => true | _ => false end.

(** How many waits and how many connects the loop has made. *)
Fixpoint count_wait (tr : list Irc.effect) : nat :=
  match tr with
  | [] => O
  | Irc.Wait _ :: tr' => S (count_wait tr')
  | _ :: tr' => count_wait tr'
  end.



(** ** What a send hands over *)

(** The effect shows that [message] went out: the echo that follows a
    [sendall] that succeeded, or the start of the YouTube send. *)
Definition hands_over (message : string) (e : Send.effect) : bool :=
  match e with
  | Send.AppendOwn m | Send.LaunchYtSend m => bool_decide (m = message)
  | _ => false
  end.

Definition is_log_sent (message : string) (e : Send.effect) : bool :=
  match e with
  | Send.LogSent m => bool_decide (m = message)
  | _ => false
  end.


(** ** The lurker refresh timer: [_run_lurker_refresh] and the thread
       it starts *)

Module LurkerTimer.

(** The text of the refresh label. *)
Inductive label := NextRefreshIn (remaining : Z) | Refreshing.

Record state := {
  my_id : bool;                   (* [g["my_id"]] is set *)
  token : bool;                   (* [g["token"]] is set *)
  next_refresh_time : Z;          (* microseconds, as in [Lurkers] *)
  is_refreshing : bool;
  lurkers : Lurkers.state;
  refresh_label : option label;
  launched : nat;                 (* refresh threads started so far *)
  handed : list (list Lurkers.entry * list Lurkers.entry)
                                  (* the lists given to the UI, newest first *)
}.

(** [max(0, int((g["next_refresh_time"] - now).total_seconds()))]: the
    difference is a whole number of microseconds and [int] cuts
    towards zero. (The float of [total_seconds] tells microseconds
    apart for differences of less than a century.) *)
Definition remaining (now : Z) (st : state) : Z :=
  Z.max 0 (Z.quot (next_refresh_time st - now) 1000000).

(** [_run_lurker_refresh], run by the timer when the clock shows
    [now]; it always sets the timer again. *)
Definition run_lurker_refresh (now : Z) (st : state) : state :=
  if negb (my_id st) || negb (token st) then st
  else
    let r := remaining now st in
    if (r <=? 0) && negb (is_refreshing st) then
      {| my_id := my_id st; token := token st;
         next_refresh_time := next_refresh_time st;
         is_refreshing := true; lurkers := lurkers st;
         refresh_label := Some Refreshing;
         launched := S (launched st); handed := handed st |}
    else
      {| my_id := my_id st; token := token st;
         next_refresh_time := next_refresh_time st;
         is_refreshing := is_refreshing st; lurkers := lurkers st;
         refresh_label := Some (NextRefreshIn r);
         launched := launched st; handed := handed st |}.

(** The thread of [_do_lurker_refresh] from the chatters request to
    its [finally]: [now] is the clock before the loop and [t_end] the
    clock after it. *)
Definition refresh_thread (now : Z) (chatters : option (list Lurkers.chatter))
    (live_ids : gset string) (clk : nat → Z) (t_end : Z) (st : state) : state :=
  match Lurkers.do_lurker_refresh now chatters live_ids clk (lurkers st) with
  | (ls, Some lists) =>
      {| my_id := my_id st; token := token st;
         next_refresh_time := t_end + 60 * 1000000;
         is_refreshing := false; lurkers := ls;
         refresh_label := refresh_label st;
         launched := launched st; handed := lists :: handed st |}
  | (ls, None) =>
      {| my_id := my_id st; token := token st;
         next_refresh_time := next_refresh_time st;
         is_refreshing := false; lurkers := ls;
         refresh_label := refresh_label st;
         launched := launched st; handed := handed st |}
  end.

End LurkerTimer.

(** ** The stream watcher: the [_check] thread of [_start_yt_watcher] *)

Module YtWatcher.

(** What [liveBroadcasts().list(...).execute()] does. Of the response
    only [items] counts, and of an item only [snippet.liveChatId]:
    [None] for an item without the key. *)
Inductive answer :=
| CheckRaised (err_str : string)
| CheckOk (items : list (option string)).

(** The functions that [_check] gives to [self.ui]. *)
Inductive task :=
| TDetected                  (* the SYSTEM message that a stream was detected *)
| TPoll                      (* [self._poll_yt_chat] *)
| TAfter (ms : Z)            (* [self.root.after(ms, self._start_yt_watcher)] *)
| TQuotaLabel.               (* the status label of the exhausted quota *)

Inductive shown := DetectedMsg | QuotaLabel.

(** The main thread: the client and what the watcher has displayed,
    newest first. *)
Record state := { yt : Yt.state; shown_log : list shown }.

(** [str(ex)] of the [KeyError] for an item without the key; it is
    ['snippet'] when that key is the missing one, which the [except]
    clause treats alike. *)
Definition key_error : string := "'liveChatId'".

Definition is_quota (err_str : string) : bool :=
  Py.contains "quotaExceeded" err_str || Py.contains "quota" (Py.lower err_str).

(** The [except] clause of [_check]. *)
Definition on_error (err_str : string) (st : Yt.state) : Yt.state * list task :=
  let st := Yt.with_watching false st in
  if is_quota err_str then
    (st, TQuotaLabel :: (if negb (Yt.yt_stop st) then [TAfter (6 * 3600 * 1000)] else []))
  else if negb (Yt.yt_stop st) then (st, [TAfter 60000])
  else (st, []).

(** The three assignments of the branch that found a stream. *)
Definition connect (chat_id : string) (st : Yt.state) : Yt.state :=
  {| Yt.yt_service := Yt.yt_service st; Yt.yt_live_chat_id := Some chat_id;
     Yt.yt_next_page := None; Yt.yt_polling := true;
     Yt.yt_watching := Yt.yt_watching st; Yt.yt_poll_job := Yt.yt_poll_job st;
     Yt.yt_stop := Yt.yt_stop st; Yt.yt_state := Yt.yt_state st;
     Yt.timers := Yt.timers st; Yt.next_timer := Yt.next_timer st;
     Yt.ui_queue := Yt.ui_queue st; Yt.trace := Yt.trace st |}.

(** The body of the [_check] thread: the new state and the tasks it
    queues, oldest first. *)
Definition check (a : answer) (st : Yt.state) : Yt.state * list task :=
  if negb (Yt.yt_service st) then (Yt.with_watching false st, [])
  else
    match a with
    | CheckRaised err_str => on_error err_str st
    | CheckOk [] =>
        let st := Yt.with_watching false st in
        (st, if negb (Yt.yt_stop st) then [TAfter 60000] else [])
    | CheckOk (Some chat_id :: _) =>
        (Yt.set_yt_state Irc.Connected (connect chat_id (Yt.with_watching false st)),
         [TDetected; TPoll])
    | CheckOk (None :: _) => on_error key_error (Yt.with_watching false st)
    end.

(** [self.root.after(ms, self._start_yt_watcher)]; the id is dropped. *)
Definition after (ms : Z) (st : Yt.state) : Yt.state :=
  {| Yt.yt_service := Yt.yt_service st;
     Yt.yt_live_chat_id := Yt.yt_live_chat_id st;
     Yt.yt_next_page := Yt.yt_next_page st; Yt.yt_polling := Yt.yt_polling st;
     Yt.yt_watching := Yt.yt_watching st; Yt.yt_poll_job := Yt.yt_poll_job st;
     Yt.yt_stop := Yt.yt_stop st; Yt.yt_state := Yt.yt_state st;
     Yt.timers := Yt.timers st ++ [(Yt.next_timer st, (ms, Yt.StartYtWatcher))];
     Yt.next_timer := S (Yt.next_timer st);
     Yt.ui_queue := Yt.ui_queue st; Yt.trace := Yt.trace st |}.

(** One task of the watcher, run on the main thread. *)
Definition run_task (s : state) (t : task) : state :=
  match t with
  | TDetected => {| yt := yt s; shown_log := DetectedMsg :: shown_log s |}
  | TPoll => {| yt := Yt.poll_yt_chat (yt s); shown_log := shown_log s |}
  | TAfter ms => {| yt := after ms (yt s); shown_log := shown_log s |}
  | TQuotaLabel => {| yt := yt s; shown_log := QuotaLabel :: shown_log s |}
  end.

(** The thread ends and the main thread runs what it queued. *)
Definition check_and_run (a : answer) (s : state) : state :=
  let '(st, tasks) := check a (yt s) in
  foldl run_task {| yt := st; shown_log := shown_log s |} tasks.

End YtWatcher.

(** The stream that a check found, if any. *)
Definition found_stream (a : YtWatcher.answer) : option string :=
  match a with
  | YtWatcher.CheckOk (Some chat_id :: _) => Some chat_id
  | _ => None
  end.

(** The pause before the next check: six hours after a failure that
    names the quota, a minute otherwise. *)
Definition watch_pause (a : YtWatcher.answer) : Z :=
  match a with
  | YtWatcher.CheckRaised err_str =>
      if YtWatcher.is_quota err_str then 21600000 else 60000
  | _ => 60000
  end.

(** ** The lines of the IRC stream *)

Definition crlf : string := String "013" (String "010" EmptyString).

(** The text that the lines and the rest of the buffer came from: each
    line with its end, then the rest. *)
Fixpoint unlines_crlf (ls : list string) (rest : string) : string :=
  match ls with
  | [] => rest
  | l :: ls' => (l +:+ crlf +:+ unlines_crlf ls' rest)%string
  end.

(** ** The chat widget: the end of [_append_chat_message] and the local
       wipe *)

Module ChatWidget.

(** The widget as the list of its lines, one for each message, and
    the counter [g["chat_message_count"]]. *)
Record state := { chat_lines : list string; chat_message_count : Z }.

Definition init : state := {| chat_lines := []; chat_message_count := 0 |}.

Definition max_chat_messages : Z := 200.

(** [_append_chat_message] for a message whose line is [line]: the
    line is added, the counter goes up, and beyond the maximum
    [chat_text.delete("1.0", "101.0")] takes the first hundred lines
    away. *)
Definition append_chat_message (line : string) (st : state) : state :=
  let lines := chat_lines st ++ [line] in
  let count := chat_message_count st + 1 in
  if max_chat_messages <? count
  then {| chat_lines := drop 100 lines; chat_message_count := count - 100 |}
  else {| chat_lines := lines; chat_message_count := count |}.

Inductive event :=
| Append (line : string)
| Wipe (username : string).     (* the local wipe of [_ctx_clear_messages] *)

Definition step (st : state) (ev : event) : state :=
  match ev with
  | Append line => append_chat_message line st
  | Wipe username =>
      {| chat_lines := (Moderation.local_wipe username (chat_lines st)).1;
         chat_message_count := chat_message_count st |}
  end.

Definition run (st : state) (evs : list event) : state := foldl step st evs.

End ChatWidget.

(** * Theorems *)

(** ** The string operations on examples *)

Example py_split_1 : Py.split "/" "25:6-10/1:0-1" = ["25:6-10"; "1:0-1"]%string.
Proof. reflexivity. Qed.
Example py_split_2 : Py.split "/" "" = [""%string].
Proof. reflexivity. Qed.
Example py_splitn_1 : Py.splitn " " "@a=b :n!n PRIVMSG #c :hi there" 2
                      = ["@a=b"; ":n!n"; "PRIVMSG #c :hi there"]%string.
Proof. reflexivity. Qed.
Example py_int_1 : Py.int " 1_000 " = Some 1000.
Proof. reflexivity. Qed.
Example py_int_2 : Py.int "1__0" = None /\ Py.int "" = None /\ Py.int "+" = None
                   /\ Py.int "-7" = Some (-7) /\ Py.int "007" = Some 7
                   /\ Py.int "6x" = None.
Proof. repeat split; reflexivity. Qed.
Example py_slice_1 : Py.slice "Hello Kappa world" 6 11 = "Kappa"%string
                     /\ Py.slice "hi" 5 1 = ""%string
                     /\ Py.slice "hello" (-3) 100 = "llo"%string.
Proof. repeat split; reflexivity. Qed.
Example py_find_1 : Py.find " :" "@a=b :n!n PRIVMSG #c :hi" 9 = 20
                    /\ Py.find " :" "abc" 7 = -1.
Proof. split; reflexivity. Qed.

(** ** The backoff of the IRC connect loop *)

Lemma delay_seq_0 : Irc.delay_seq 0 = 2.
Proof. reflexivity. Qed.







Lemma process_irc_line_frame (debug : bool) (line : string) (st : Irc.state) :
  let st' := Irc.process_irc_line debug line st in
  Irc.tw_state st' = Irc.tw_state st
  ∧ Irc.tw_backoff st' = Irc.tw_backoff st
  ∧ Irc.tw_stop st' = Irc.tw_stop st
  ∧ Irc.chat_socket st' = Irc.chat_socket st
  ∧ Irc.at_pc st' = Irc.at_pc st
  ∧ Irc.ui_pending st' = Irc.ui_pending st
  ∧ Irc.recent_waits (Irc.trace st') = Irc.recent_waits (Irc.trace st).
Proof.
  unfold Irc.process_irc_line.
  repeat match goal with
         | |- context [if ?c then _ else _] => destruct c
         | |- context [match ?c with _ => _ end] => destruct c
         end; simpl; done.
Qed.




Example irc_backoff_from_start :
  let fail := [Irc.ConnectError; Irc.WaitOver] in
  let st := Irc.run (Irc.init "chan")
              (Irc.StartRequested "oauth:abc" true
               :: fail ++ fail ++ fail ++ fail ++ fail ++ fail ++ fail) in
  rev (Irc.recent_waits (Irc.trace st)) = [2; 4; 8; 16; 32; 60; 60]
  ∧ Irc.tw_backoff st = 60 ∧ Irc.tw_state st = Irc.Reconnecting.
Proof. vm_compute. done. Qed.

Example irc_backoff_after_connect :
  let st := Irc.run (Irc.init "chan")
              [Irc.StartRequested "oauth:abc" true;
               Irc.ConnectError; Irc.WaitOver; Irc.ConnectError; Irc.WaitOver;
               Irc.ConnectOk true; Irc.Recv ""; Irc.WaitOver;
               Irc.ConnectError; Irc.WaitOver; Irc.ConnectError] in
  rev (Irc.recent_waits (Irc.trace st)) = [2; 4; 8]
  ∧ Irc.tw_backoff st = 8 ∧ Irc.at_pc st = Irc.Waiting.
Proof. vm_compute. done. Qed.

(** ** The read loop and its keep-alive *)

Lemma step_timeout_sent (st : Irc.state) (buf : string) :
  Irc.at_pc st = Irc.Reading buf → Irc.tw_stop st = false →
  Irc.step st (Irc.Timeout true) = Irc.emit Irc.SendPing st.
Proof.
  intros Hpc Hstop. destruct st as [s b stop sock tmo ch p pend tr].
  simpl in *. subst. reflexivity.
Qed.

Lemma run_timeouts_sent (n : nat) (st : Irc.state) (buf : string) :
  Irc.at_pc st = Irc.Reading buf → Irc.tw_stop st = false →
  Irc.run st (replicate n (Irc.Timeout true)) = Nat.iter n (Irc.emit Irc.SendPing) st.
Proof.
  revert st. induction n as [|n IH]; intros st Hpc Hstop; [done |].
  change (Irc.run st (replicate (S n) (Irc.Timeout true)))
    with (Irc.run (Irc.step st (Irc.Timeout true)) (replicate n (Irc.Timeout true))).
  rewrite (step_timeout_sent st buf) by done.
  rewrite IH by done.
  clear. induction n as [|n IH]; [done |]. simpl. by rewrite IH.
Qed.

Lemma iter_ping_fields (n : nat) (st : Irc.state) :
  let st' := Nat.iter n (Irc.emit Irc.SendPing) st in
  Irc.tw_state st' = Irc.tw_state st
  ∧ Irc.at_pc st' = Irc.at_pc st
  ∧ Irc.tw_backoff st' = Irc.tw_backoff st
  ∧ Irc.trace st' = replicate n Irc.SendPing ++ Irc.trace st.
Proof.
  induction n as [|n IH]; [done |]. simpl in *.
  destruct IH as (-> & -> & -> & ->). done.
Qed.

Lemma after_attempt_reconnects (st : Irc.state) :
  Irc.tw_stop st = false →
  Irc.tw_state (Irc.after_attempt st) = Irc.Reconnecting
  ∧ Irc.at_pc (Irc.after_attempt st) = Irc.Waiting
  ∧ Irc.chat_socket (Irc.after_attempt st) = false.
Proof. intros Hstop. unfold Irc.after_attempt. simpl. by rewrite Hstop. Qed.

(** C5, as the code has it. Once connected the read timeout is 30
    seconds. A read timeout makes the client send a ping and, when the
    ping is sent, read again: after any number [n] of consecutive
    timeouts the client is still connected and reading, having sent [n]
    pings and kept no count. The connection is given up, and a
    reconnect is scheduled, when a ping cannot be sent, when a read
    returns no data, or when a read fails otherwise. *)
Theorem irc_read_timeout_sends_ping (st : Irc.state) (buf : string) (n : nat)
    (handshake_ok : bool) :
  Irc.at_pc st = Irc.Reading buf →
  Irc.tw_stop st = false →
  let st' := Irc.run st (replicate n (Irc.Timeout true)) in
  Irc.sock_timeout
    (Irc.step (Irc.set_pc Irc.AtConnect st) (Irc.ConnectOk handshake_ok)) = 30
  ∧ Irc.at_pc st' = Irc.Reading buf
  ∧ Irc.tw_state st' = Irc.tw_state st
  ∧ Irc.trace st' = replicate n Irc.SendPing ++ Irc.trace st
  ∧ (∀ ev, ev = Irc.Timeout false ∨ ev = Irc.Recv "" ∨ ev = Irc.ReadError →
           Irc.tw_state (Irc.step st' ev) = Irc.Reconnecting
           ∧ Irc.at_pc (Irc.step st' ev) = Irc.Waiting).
Proof.
  intros Hpc Hstop st'. subst st'.
  rewrite (run_timeouts_sent n st buf) by done.
  destruct (iter_ping_fields n st) as (Hs & Hp & Hb & Ht).
  split; [| split; [| split; [| split]]].
  - simpl. destruct handshake_ok; simpl.
    + unfold Irc.read_guard, Irc.after_attempt. simpl. by rewrite Hstop.
    + unfold Irc.after_attempt. simpl. by rewrite Hstop.
  - congruence.
  - done.
  - done.
  - intros ev Hev.
    assert (Hstop' : Irc.tw_stop (Nat.iter n (Irc.emit Irc.SendPing) st) = false).
    { clear -Hstop. induction n; simpl; done. }
    assert (Irc.step (Nat.iter n (Irc.emit Irc.SendPing) st) ev
            = Irc.after_attempt (Nat.iter n (Irc.emit Irc.SendPing) st)) as ->.
    { destruct Hev as [-> | [-> | ->]]; simpl; rewrite Hp, Hpc; done. }
    destruct (after_attempt_reconnects _ Hstop') as (? & ? & _). done.
Qed.

Lemma irc_read_timeout_sends_ping_witness :
  let st := Irc.run (Irc.init "chan")
              [Irc.StartRequested "oauth:abc" true; Irc.ConnectOk true] in
  let st' := Irc.run st (replicate 3 (Irc.Timeout true)) in
  Irc.at_pc st = Irc.Reading "" ∧ Irc.tw_stop st = false
  ∧ Irc.at_pc st' = Irc.Reading ""
  ∧ Irc.tw_state st' = Irc.tw_state st
  ∧ Irc.trace st' = replicate 3 Irc.SendPing ++ Irc.trace st.
Proof.
  split; [reflexivity | split; [reflexivity |]].
  pose proof (irc_read_timeout_sends_ping
                (Irc.run (Irc.init "chan")
                   [Irc.StartRequested "oauth:abc" true; Irc.ConnectOk true])
                "" 3 true eq_refl eq_refl) as H.
  exact (conj (proj1 (proj2 H))
           (conj (proj1 (proj2 (proj2 H))) (proj1 (proj2 (proj2 (proj2 H)))))).
Defined.

(** C5, as the claim has it, fails: three consecutive read timeouts
    with nothing else received leave the client connected and reading;
    no reconnect is scheduled. *)
Lemma irc_three_timeouts_not_a_loss :
  let st := Irc.run (Irc.init "chan")
              [Irc.StartRequested "oauth:abc" true; Irc.ConnectOk true;
               Irc.Timeout true; Irc.Timeout true; Irc.Timeout true] in
  Irc.tw_state st = Irc.Connected
  ∧ Irc.tw_state st ≠ Irc.Reconnecting
  ∧ Irc.at_pc st = Irc.Reading ""
  ∧ Irc.trace st = [Irc.SendPing; Irc.SendPing; Irc.SendPing;
                    Irc.SockConnected; Irc.Spawn].
Proof. vm_compute. repeat split; done. Qed.

(** ** Authentication-failure notices *)




(** ** The emote descriptor *)

Example privmsg_kappa :
  Irc.handle_privmsg
    "@display-name=Bob;emotes=25:6-10;id=abc :bob!bob@bob.tmi.twitch.tv PRIVMSG #chan :Hello Kappa world"
  = Irc.Returned (Some {| Irc.author := "Bob"; Irc.body := "Hello Kappa world";
                          Irc.emote_map := {[ "Kappa"%string := "25"%string ]} |}).
Proof. vm_compute. reflexivity. Qed.









(** C8 on the failing input. The entry [25:5-0] names a range that
    starts beyond the two characters of the body. The body comes back
    intact, but the entry is not skipped: it maps the empty string to
    the emote id 25. *)
Theorem privmsg_start_beyond_body_not_skipped :
  let line := "@display-name=Bob;emotes=25:5-0 :bob!bob@bob.tmi.twitch.tv PRIVMSG #chan :hi"%string in
  entry_range "25:5-0" "25" 5 0
  ∧ ¬ in_body "hi" 5 0
  ∧ Irc.emote_entry "hi" "25:5-0" = Some (EmptyString, "25"%string)
  ∧ Irc.handle_privmsg line
    = Irc.Returned (Some {| Irc.author := "Bob"; Irc.body := "hi";
                            Irc.emote_map := {[ EmptyString := "25"%string ]} |}).
Proof.
  split; [| split; [| split]].
  - split; [reflexivity |]. eexists _, _. repeat split; reflexivity.
  - unfold in_body. intros (? & ? & ?). lia.
  - reflexivity.
  - vm_compute. reflexivity.
Qed.

(** ** The YouTube poll step *)

Example classify_examples :
  Yt.classify "<HttpError 403 ... reason: liveChatEnded>" = Yt.SessionEnded
  ∧ Yt.classify "<HttpError 404 ... liveChatNotFound>" = Yt.SessionEnded
  ∧ Yt.classify "<HttpError 403 ... exceeded your quota ... quotaExceeded>" = Yt.RateLimited
  ∧ Yt.classify "<HttpError 429 ... Too Many Requests>" = Yt.RateLimited
  ∧ Yt.classify "timed out" = Yt.Transient
  ∧ Yt.classify Yt.name_error_t = Yt.Transient.
Proof. vm_compute. repeat split; done. Qed.

Lemma run_task_cursor (st : Yt.state) (t : Yt.ui_task) :
  Yt.yt_next_page (Yt.run_task st t) = Yt.yt_next_page st.
Proof.
  destruct t; simpl; try done.
  - unfold Yt.start_yt_watcher.
    destruct (Yt.yt_watching st); [done |].
    by destruct (Yt.yt_polling st || Yt.yt_stop st).
  - unfold Yt.poll_yt_chat. by destruct (Yt.poll_guard st).
Qed.

Lemma process_ui_queue_cursor (st : Yt.state) :
  Yt.yt_next_page (Yt.process_ui_queue st) = Yt.yt_next_page st.
Proof.
  unfold Yt.process_ui_queue.
  change (Yt.yt_next_page st) with (Yt.yt_next_page (Yt.with_queue [] st)).
  generalize (Yt.with_queue [] st). induction (Yt.ui_queue st) as [|t q IH]; intros s.
  - done.
  - simpl. rewrite IH. apply run_task_cursor.
Qed.

Lemma fire_cursor (id : nat) (st : Yt.state) :
  Yt.yt_next_page (Yt.fire id st) = Yt.yt_next_page st.
Proof.
  unfold Yt.fire. destruct (list_find _ _) as [[i [j [ms cb]]]|]; [| done].
  destruct cb.
  - unfold Yt.poll_yt_chat. by destruct (Yt.poll_guard _).
  - unfold Yt.start_yt_watcher. simpl.
    destruct (Yt.yt_watching st); [done |].
    by destruct (Yt.yt_polling st || Yt.yt_stop st).
Qed.

(** C4. A failure of the rate-limited class, met while the client is
    polling, schedules one call of the poll function 300000 ms later and
    nothing else; the cursor is the one held before, it stays so while
    the queued status updates run and when that timer fires, and the
    request built then is the request that failed. *)
Theorem yt_rate_limited_one_retry (log_var : bool) (err_str : string)
    (st : Yt.state) :
  Yt.classify err_str = Yt.RateLimited →
  Yt.yt_polling st = true →
  let st1 := Yt.fetch log_var (Yt.ListRaised err_str) st in
  Yt.timers st1 = Yt.timers st ++ [(Yt.next_timer st, (300000, Yt.PollYtChat))]
  ∧ Yt.yt_poll_job st1 = Some (Yt.next_timer st)
  ∧ Yt.ui_queue st1
    = Yt.ui_queue st ++ [Yt.TSetState Irc.Reconnecting; Yt.TLabel Yt.LblRateLimited]
  ∧ Yt.yt_next_page st1 = Yt.yt_next_page st
  ∧ Yt.request_of st1 = Yt.request_of st
  ∧ Yt.yt_next_page (Yt.fire (Yt.next_timer st) (Yt.process_ui_queue st1))
    = Yt.yt_next_page st.
Proof.
  intros Hc Hp st1.
  assert (Hst1 : st1 = Yt.schedule_poll 300000
                         (Yt.ui (Yt.TLabel Yt.LblRateLimited)
                            (Yt.ui (Yt.TSetState Irc.Reconnecting)
                               (Yt.emit (Yt.ListMessages (Yt.request_of st)) st)))).
  { subst st1. unfold Yt.fetch, Yt.handle_error. rewrite Hc. simpl. by rewrite Hp. }
  split; [| split; [| split; [| split; [| split]]]].
  - by rewrite Hst1.
  - by rewrite Hst1.
  - rewrite Hst1. simpl. by rewrite <- app_assoc.
  - by rewrite Hst1.
  - by rewrite Hst1.
  - rewrite fire_cursor, process_ui_queue_cursor. by rewrite Hst1.
Qed.

Lemma yt_rate_limited_one_retry_witness :
  let err := "<HttpError 429 when requesting liveChat/messages: Too Many Requests>"%string in
  let st := yt_polling_state (Some "T1"%string) in
  let st1 := Yt.fetch true (Yt.ListRaised err) st in
  Yt.classify err = Yt.RateLimited ∧ Yt.yt_polling st = true
  ∧ Yt.timers st1 = [(O, (300000, Yt.PollYtChat))]
  ∧ Yt.yt_next_page st1 = Some "T1"%string
  ∧ Yt.request_of st1 = Yt.request_of st.
Proof.
  split; [reflexivity | split; [reflexivity |]].
  pose proof (yt_rate_limited_one_retry true
                "<HttpError 429 when requesting liveChat/messages: Too Many Requests>"
                (yt_polling_state (Some "T1"%string)) eq_refl eq_refl) as H.
  exact (conj (proj1 H)
           (conj (proj1 (proj2 (proj2 (proj2 H))))
                 (proj1 (proj2 (proj2 (proj2 (proj2 H))))))).
Defined.

Example yt_rate_limited_resumes :
  let err := "<HttpError 429 when requesting liveChat/messages: Too Many Requests>"%string in
  let st := yt_polling_state (Some "T1"%string) in
  let st2 := Yt.fire O (Yt.process_ui_queue (Yt.fetch true (Yt.ListRaised err) st)) in
  Yt.trace st2
  = [Yt.LaunchFetch; Yt.StatusLabel Yt.LblRateLimited;
     Yt.ListMessages {| Yt.liveChatId := Some "chat-1"%string;
                        Yt.pageToken := Some "T1"%string |}]
  ∧ Yt.request_of st2 = Yt.request_of st
  ∧ Yt.timers st2 = [].
Proof. vm_compute. repeat split; done. Qed.

(** C3 on the failing input. A failure of the session-ended class puts
    three tasks in the queue: stop the chat, show the notice, start the
    watcher, the last one once. Run in this order they end polling (no
    retry is scheduled, the poll function would return at its guard),
    and show two SYSTEM messages. But the task that stops the chat sets
    the stop signal, and the watcher's start returns at its own test of
    that signal: no check for a live stream is started, then or at any
    later call, until the stop signal is cleared. *)
Theorem yt_session_ended_watcher_not_started (log_var : bool) (err_str : string)
    (st : Yt.state) :
  Yt.classify err_str = Yt.SessionEnded →
  Yt.ui_queue st = [] →
  let st1 := Yt.fetch log_var (Yt.ListRaised err_str) st in
  let st2 := Yt.process_ui_queue st1 in
  Yt.ui_queue st1 = [Yt.TStopYtChat; Yt.TSystem Yt.StreamEnded; Yt.TStartYtWatcher]
  ∧ Yt.timers st1 = Yt.timers st
  ∧ Yt.yt_polling st2 = false
  ∧ Yt.poll_yt_chat st2 = st2
  ∧ Yt.trace st2
    = [Yt.SystemMsg Yt.StreamEnded; Yt.SystemMsg Yt.ChatDisconnected;
       Yt.ListMessages (Yt.request_of st)] ++ Yt.trace st
  ∧ Yt.yt_stop st2 = true
  ∧ Yt.yt_watching st2 = Yt.yt_watching st
  ∧ Yt.count_launch_check (Yt.trace st2) = Yt.count_launch_check (Yt.trace st)
  ∧ Yt.start_yt_watcher st2 = st2.
Proof.
  intros Hc Hq st1 st2. subst st2 st1.
  unfold Yt.fetch, Yt.handle_error. rewrite Hc.
  unfold Yt.process_ui_queue, Yt.ui. simpl. rewrite Hq. simpl.
  unfold Yt.start_yt_watcher, Yt.poll_yt_chat, Yt.poll_guard. simpl.
  destruct (Yt.yt_watching st) eqn:Hw; simpl; rewrite ?Hw; repeat split; done.
Qed.

Lemma yt_session_ended_watcher_not_started_witness :
  let err := "<HttpError 403 when requesting liveChat/messages: The live chat is no longer live. reason: liveChatEnded>"%string in
  let st := yt_polling_state (Some "T1"%string) in
  let st2 := Yt.process_ui_queue (Yt.fetch true (Yt.ListRaised err) st) in
  Yt.classify err = Yt.SessionEnded ∧ Yt.ui_queue st = []
  ∧ Yt.yt_watching st2 = false
  ∧ Yt.count_launch_check (Yt.trace st2) = O.
Proof.
  split; [reflexivity | split; [reflexivity |]].
  pose proof (yt_session_ended_watcher_not_started true
                "<HttpError 403 when requesting liveChat/messages: The live chat is no longer live. reason: liveChatEnded>"
                (yt_polling_state (Some "T1"%string)) eq_refl eq_refl) as H.
  exact (conj (proj1 (proj2 (proj2 (proj2 (proj2 (proj2 (proj2 H)))))))
              (proj1 (proj2 (proj2 (proj2 (proj2 (proj2 (proj2 (proj2 H))))))))).
Defined.

Lemma item_loop_fields (log_var : bool) (its : list Yt.item) (st : Yt.state) :
  let r := Yt.item_loop log_var its st in
  Yt.yt_polling r.1 = Yt.yt_polling st
  ∧ Yt.yt_stop r.1 = Yt.yt_stop st
  ∧ Yt.yt_next_page r.1 = Yt.yt_next_page st
  ∧ Yt.timers r.1 = Yt.timers st
  ∧ Yt.next_timer r.1 = Yt.next_timer st
  ∧ r.2 = match its with [] => true | _ => negb log_var end.
Proof.
  revert st. induction its as [|it rest IH]; intros st; [done |].
  simpl. destruct log_var; [done |].
  destruct (IH (Yt.ui (Yt.TAppend (default "unknown"%string (Yt.displayName it))
                                  (default EmptyString (Yt.displayMessage it))) st))
    as (-> & -> & -> & -> & -> & Hfin).
  repeat split; try done. rewrite Hfin. by destruct rest.
Qed.

(** The part of C6 that holds on the code: when the item loop runs to
    its end (chat logging is off, or the batch is empty) and the client
    is still polling, the cursor is the response's token and the one
    poll scheduled comes after the larger of 5000 ms and the interval
    the response gives (5000 when it gives none). *)
Lemma yt_success_next_poll (log_var : bool) (resp : Yt.response) (st : Yt.state) :
  log_var = false ∨ Yt.items resp = [] →
  Yt.yt_polling st = true → Yt.yt_stop st = false →
  let st1 := Yt.fetch log_var (Yt.ListOk resp) st in
  Yt.yt_next_page st1 = Yt.nextPageToken resp
  ∧ Yt.timers st1
    = Yt.timers st
      ++ [(Yt.next_timer st,
           (Z.max 5000 (default 5000 (Yt.pollingIntervalMillis resp)), Yt.PollYtChat))].
Proof.
  intros Hlog Hp Hs st1. subst st1. unfold Yt.fetch.
  pose proof (item_loop_fields log_var (Yt.items resp)
                (Yt.with_cursor (Yt.nextPageToken resp)
                   (Yt.emit (Yt.ListMessages (Yt.request_of st)) st))) as H.
  destruct (Yt.item_loop _ _ _) as [st' fin]. simpl in H.
  destruct H as (Hp' & Hs' & Hc' & Ht' & Hn' & Hfin).
  assert (fin = true) as ->.
  { rewrite Hfin. destruct Hlog as [-> | ->]; [by destruct (Yt.items resp) | done]. }
  rewrite Hp', Hs', Hp, Hs. simpl. by rewrite Hc', Ht', Hn'.
Qed.

(** C6 on the failing input. With chat logging on (the default) and a
    batch that is not empty, the request succeeds and the cursor is
    replaced, but after the first item is queued for display the call of
    [log_chat] raises; the failure is of the transient class, so the
    next poll is scheduled 15000 ms later, whatever interval the
    response gave, and the rest of the batch is not displayed. *)
Theorem yt_logged_batch_next_poll_15s (resp : Yt.response) (it : Yt.item)
    (rest : list Yt.item) (st : Yt.state) :
  Yt.items resp = it :: rest →
  Yt.yt_polling st = true →
  let st1 := Yt.fetch true (Yt.ListOk resp) st in
  Yt.yt_next_page st1 = Yt.nextPageToken resp
  ∧ Yt.timers st1 = Yt.timers st ++ [(Yt.next_timer st, (15000, Yt.PollYtChat))]
  ∧ Yt.ui_queue st1
    = Yt.ui_queue st
      ++ [Yt.TAppend (default "unknown"%string (Yt.displayName it))
                     (default EmptyString (Yt.displayMessage it))].
Proof.
  intros Hi Hp st1. subst st1. unfold Yt.fetch. rewrite Hi. simpl.
  unfold Yt.handle_error.
  change (Yt.classify Yt.name_error_t) with Yt.Transient. simpl.
  rewrite Hp. done.
Qed.

Lemma yt_logged_batch_next_poll_15s_witness :
  let it := {| Yt.displayMessage := Some "hello"%string;
               Yt.displayName := Some "Ann"%string |} in
  let resp := {| Yt.nextPageToken := Some "T2"%string;
                 Yt.pollingIntervalMillis := Some 6000;
                 Yt.items := [it] |} in
  let st := yt_polling_state (Some "T1"%string) in
  let st1 := Yt.fetch true (Yt.ListOk resp) st in
  Yt.items resp = [it] ∧ Yt.yt_polling st = true
  ∧ Yt.yt_next_page st1 = Some "T2"%string
  ∧ Yt.timers st1 = [(O, (15000, Yt.PollYtChat))]
  ∧ Z.max 5000 (default 5000 (Yt.pollingIntervalMillis resp)) = 6000.
Proof.
  split; [reflexivity | split; [reflexivity |]].
  pose proof (yt_logged_batch_next_poll_15s
                {| Yt.nextPageToken := Some "T2"%string;
                   Yt.pollingIntervalMillis := Some 6000;
                   Yt.items := [{| Yt.displayMessage := Some "hello"%string;
                                   Yt.displayName := Some "Ann"%string |}] |}
                {| Yt.displayMessage := Some "hello"%string;
                   Yt.displayName := Some "Ann"%string |}
                [] (yt_polling_state (Some "T1"%string)) eq_refl eq_refl) as H.
  exact (conj (proj1 H) (conj (proj1 (proj2 H)) eq_refl)).
Defined.

(** ** The lurker refresh *)

Lemma first_sighting_sessions (un : string) (t : Z) (st : Lurkers.state) :
  Lurkers.session_lurkers (Lurkers.first_sighting un t st)
  = Lurkers.session_lurkers st.
Proof.
  unfold Lurkers.first_sighting, Lurkers.play_lurk_notify.
  destruct (decide _); [done |]. simpl. by destruct (Lurkers.at_least_seconds _ _).
Qed.

(** What one turn of the loop does to the registry: the row's name gets
    a record whose [joined] is [now] if the name is new and the old
    value otherwise, and whose flag is the fresh one; no other name is
    touched. *)
Lemma refresh_one_sessions (now : Z) (live_ids : gset string) (clk : nat → Z)
    (st : Lurkers.state) (l r : list Lurkers.entry) (i : nat) (c : Lurkers.chatter) :
  Lurkers.session_lurkers
    (Lurkers.refresh_one now live_ids clk (st, l, r, i) c).1.1.1
  = <[Lurkers.user_name c :=
        {| Lurkers.joined :=
             match Lurkers.session_lurkers st !! Lurkers.user_name c with
             | Some s => Lurkers.joined s
             | None => now
             end;
           Lurkers.is_live := bool_decide (Lurkers.user_id c ∈ live_ids) |}]>
      (Lurkers.session_lurkers st).
Proof.
  unfold Lurkers.refresh_one.
  destruct (Lurkers.session_lurkers st !! Lurkers.user_name c) as [s|] eqn:Hl; simpl.
  - by destruct (Lurkers.at_least_seconds _ _).
  - destruct (Lurkers.at_least_seconds _ _); simpl;
      by rewrite first_sighting_sessions.
Qed.

Lemma refresh_one_joined (now : Z) (live_ids : gset string) (clk : nat → Z)
    (a : Lurkers.acc) (c : Lurkers.chatter) (un : string) (s : Lurkers.session) :
  Lurkers.session_lurkers a.1.1.1 !! un = Some s →
  ∃ s', Lurkers.session_lurkers
          (Lurkers.refresh_one now live_ids clk a c).1.1.1 !! un = Some s'
        ∧ Lurkers.joined s' = Lurkers.joined s
        ∧ (un ≠ Lurkers.user_name c → s' = s).
Proof.
  destruct a as [[[st l] r] i]. intros Hs. simpl in Hs.
  rewrite refresh_one_sessions.
  destruct (decide (Lurkers.user_name c = un)) as [<- | Hne].
  - rewrite lookup_insert_eq, Hs. eexists. split; [done |]. split; [done |]. done.
  - rewrite lookup_insert_ne by done. exists s. done.
Qed.

Lemma refresh_fold_joined (now : Z) (live_ids : gset string) (clk : nat → Z)
    (cs : list Lurkers.chatter) (a : Lurkers.acc) (un : string) (s : Lurkers.session) :
  Lurkers.session_lurkers a.1.1.1 !! un = Some s →
  ∃ s', Lurkers.session_lurkers
          (foldl (Lurkers.refresh_one now live_ids clk) a cs).1.1.1 !! un = Some s'
        ∧ Lurkers.joined s' = Lurkers.joined s
        ∧ (un ∉ map Lurkers.user_name cs → s' = s).
Proof.
  revert a s. induction cs as [|c cs IH]; intros a s Hs.
  - exists s. done.
  - simpl.
    destruct (refresh_one_joined now live_ids clk a c un s Hs) as (s1 & H1 & Hj1 & Hk1).
    destruct (IH _ _ H1) as (s2 & H2 & Hj2 & Hk2).
    exists s2. split; [done |]. split; [congruence |].
    intros Hnot. rewrite not_elem_of_cons in Hnot. destruct Hnot as [Hne Hnot].
    rewrite Hk2, Hk1; done.
Qed.

Lemma refresh_one_eq (now : Z) (live_ids : gset string) (clk : nat → Z)
    (st : Lurkers.state) (l r : list Lurkers.entry) (i : nat) (c : Lurkers.chatter) :
  let un := Lurkers.user_name c in
  let live := bool_decide (Lurkers.user_id c ∈ live_ids) in
  let j := match Lurkers.session_lurkers st !! un with
           | Some s => Lurkers.joined s
           | None => now
           end in
  let e := {| Lurkers.name := un; Lurkers.entry_joined := j;
              Lurkers.entry_is_live := live |} in
  ∃ st',
    Lurkers.session_lurkers st'
    = <[un := {| Lurkers.joined := j; Lurkers.is_live := live |}]>
        (Lurkers.session_lurkers st)
    ∧ Lurkers.refresh_one now live_ids clk (st, l, r, i) c
      = if Lurkers.at_least_seconds 300 (now - j)
        then (st', l ++ [e], r, S i) else (st', l, r ++ [e], S i).
Proof.
  intros un live j e. subst j e. unfold Lurkers.refresh_one. fold un live.
  destruct (Lurkers.session_lurkers st !! un) as [s|] eqn:Hl; simpl.
  - eexists. split; [| reflexivity]. done.
  - eexists. split; [| reflexivity]. by rewrite first_sighting_sessions.
Qed.

Lemma refresh_one_buckets (now : Z) (live_ids : gset string) (clk : nat → Z)
    (a : Lurkers.acc) (c : Lurkers.chatter) :
  buckets_ok now a → buckets_ok now (Lurkers.refresh_one now live_ids clk a c).
Proof.
  destruct a as [[[st l] r] i]. intros (Hl & Hr & Hreg). simpl in Hl, Hr, Hreg.
  destruct (refresh_one_eq now live_ids clk st l r i c) as (st' & Hs & ->).
  set (un := Lurkers.user_name c) in *.
  set (j := match Lurkers.session_lurkers st !! un with
            | Some s => Lurkers.joined s
            | None => now
            end) in *.
  assert (Hold : ∀ e, e ∈ l ++ r →
            ∃ s, Lurkers.session_lurkers st' !! Lurkers.name e = Some s
                 ∧ Lurkers.joined s = Lurkers.entry_joined e).
  { intros e He. destruct (Hreg e He) as (s & Hlk & Hj). rewrite Hs.
    destruct (decide (un = Lurkers.name e)) as [Heq | Hne].
    - rewrite <- Heq in *. rewrite lookup_insert_eq. eexists. split; [done |].
      simpl. subst j. by rewrite Hlk.
    - rewrite lookup_insert_ne by done. eauto. }
  assert (Hnew : ∃ s, Lurkers.session_lurkers st' !! un = Some s
                      ∧ Lurkers.joined s = j).
  { rewrite Hs, lookup_insert_eq. eauto. }
  unfold Lurkers.at_least_seconds.
  destruct (300 * 1000000 <=? now - j) eqn:Hcmp;
    [apply Z.leb_le in Hcmp | apply Z.leb_gt in Hcmp];
    unfold buckets_ok; simpl; (split; [| split]).
  - intros e He. apply elem_of_app in He as [He | He]; [by apply Hl |].
    apply list_elem_of_singleton in He as ->. done.
  - done.
  - intros e He. rewrite <- app_assoc in He.
    apply elem_of_app in He as [He | He]; [apply Hold, elem_of_app; by left |].
    apply elem_of_app in He as [He | He]; [| apply Hold, elem_of_app; by right].
    apply list_elem_of_singleton in He as ->. done.
  - done.
  - intros e He. apply elem_of_app in He as [He | He]; [by apply Hr |].
    apply list_elem_of_singleton in He as ->. done.
  - intros e He. rewrite app_assoc in He.
    apply elem_of_app in He as [He | He]; [by apply Hold |].
    apply list_elem_of_singleton in He as ->. done.
Qed.

Lemma refresh_fold_buckets (now : Z) (live_ids : gset string) (clk : nat → Z)
    (cs : list Lurkers.chatter) (a : Lurkers.acc) :
  buckets_ok now a →
  buckets_ok now (foldl (Lurkers.refresh_one now live_ids clk) a cs).
Proof.
  revert a. induction cs as [|c cs IH]; intros a Ha; [done |].
  simpl. by apply IH, refresh_one_buckets.
Qed.

Lemma refresh_fold_names (now : Z) (live_ids : gset string) (clk : nat → Z)
    (cs : list Lurkers.chatter) (a : Lurkers.acc) :
  let a' := foldl (Lurkers.refresh_one now live_ids clk) a cs in
  (length a'.1.1.2 + length a'.1.2
   = length a.1.1.2 + length a.1.2 + length cs)%nat.
Proof.
  revert a. induction cs as [|c cs IH]; intros a; simpl; [lia |].
  rewrite IH. destruct a as [[[st l] r] i].
  destruct (refresh_one_eq now live_ids clk st l r i c) as (st' & _ & ->).
  destruct (Lurkers.at_least_seconds _ _); simpl; rewrite length_app; simpl; lia.
Qed.

Lemma step_joined (st : Lurkers.state) (ev : Lurkers.event) (un : string)
    (s : Lurkers.session) :
  Lurkers.session_lurkers st !! un = Some s →
  ∃ s', Lurkers.session_lurkers (Lurkers.step st ev) !! un = Some s'
        ∧ Lurkers.joined s' = Lurkers.joined s.
Proof.
  intros Hs. destruct ev as [now [[|c cs]|] live clk | t]; simpl; eauto.
  destruct (refresh_fold_joined now live clk (c :: cs) (st, [], [], O) un s Hs)
    as (s' & Hs' & Hj & _).
  simpl in Hs'. destruct (foldl _ _ cs) as [[[st' l] r] i]. eauto.
Qed.

Lemma run_joined (evs : list Lurkers.event) (st : Lurkers.state) (un : string)
    (s : Lurkers.session) :
  Lurkers.session_lurkers st !! un = Some s →
  ∃ s', Lurkers.session_lurkers (Lurkers.run st evs) !! un = Some s'
        ∧ Lurkers.joined s' = Lurkers.joined s.
Proof.
  revert st s. induction evs as [|ev evs IH]; intros st s Hs; [eauto |].
  simpl. destruct (step_joined st ev un s Hs) as (s1 & H1 & Hj1).
  destruct (IH _ _ H1) as (s2 & H2 & Hj2). exists s2. split; [done | congruence].
Qed.

(** C7. In one refresh, a name already in the registry keeps its
    [joined] (only the live flag is written, and a name not among the
    chatters keeps its whole record); this holds over any number of
    refreshes. Every chatter is reported once, in [longest] exactly when
    [now - joined] is at least 300 seconds and in [recent] otherwise,
    and the [joined] it is reported with is the one the registry holds:
    the bucket is computed from it at each refresh, the registry stores
    no bucket. *)
Theorem lurker_refresh_joined_and_buckets (now : Z) (cs : list Lurkers.chatter)
    (live_ids : gset string) (clk : nat → Z) (st : Lurkers.state)
    (evs : list Lurkers.event) (un : string) (s : Lurkers.session) :
  let r := Lurkers.do_lurker_refresh now (Some cs) live_ids clk st in
  (Lurkers.session_lurkers st !! un = Some s →
   (∃ s', Lurkers.session_lurkers r.1 !! un = Some s'
          ∧ Lurkers.joined s' = Lurkers.joined s
          ∧ (un ∉ map Lurkers.user_name cs → s' = s))
   ∧ (∃ s', Lurkers.session_lurkers (Lurkers.run st evs) !! un = Some s'
            ∧ Lurkers.joined s' = Lurkers.joined s))
  ∧ (∀ longest recent, r.2 = Some (longest, recent) →
       (length longest + length recent = length cs)%nat
       ∧ (∀ e, e ∈ longest → 300 * 1000000 <= now - Lurkers.entry_joined e)
       ∧ (∀ e, e ∈ recent → now - Lurkers.entry_joined e < 300 * 1000000)
       ∧ (∀ e, e ∈ longest ++ recent →
            ∃ s', Lurkers.session_lurkers r.1 !! Lurkers.name e = Some s'
                  ∧ Lurkers.joined s' = Lurkers.entry_joined e)).
Proof.
  intros r. subst r. split.
  - intros Hs. split; [| by apply run_joined].
    destruct cs as [|c cs]; [exists s; done |].
    destruct (refresh_fold_joined now live_ids clk (c :: cs) (st, [], [], O) un s Hs)
      as (s' & Hs' & Hj & Hk).
    unfold Lurkers.do_lurker_refresh.
    destruct (foldl _ _ (c :: cs)) as [[[st' l] r] i]. eauto.
  - intros longest recent. destruct cs as [|c cs]; [done |].
    unfold Lurkers.do_lurker_refresh.
    pose proof (refresh_fold_buckets now live_ids clk (c :: cs) (st, [], [], O)) as Hb.
    pose proof (refresh_fold_names now live_ids clk (c :: cs) (st, [], [], O)) as Hn.
    destruct (foldl _ _ (c :: cs)) as [[[st' l] r] i]. simpl in Hn.
    intros [= <- <-]. simpl.
    destruct Hb as (Hl & Hr & Hreg).
    { repeat split; intros e He; by apply elem_of_nil in He. }
    done.
Qed.

Example lurker_recent_then_long_lived :
  let t1 := 1000 * 1000000 in
  let ann := {| Lurkers.user_id := "11"; Lurkers.user_name := "Ann" |} in
  let r1 := Lurkers.do_lurker_refresh t1 (Some [ann]) ∅ (λ _, t1) Lurkers.init in
  let r6 := Lurkers.do_lurker_refresh (t1 + 301 * 1000000) (Some [ann]) {["11"%string]}
              (λ _, t1 + 301 * 1000000) r1.1 in
  r1.2 = Some ([], [{| Lurkers.name := "Ann"; Lurkers.entry_joined := t1;
                       Lurkers.entry_is_live := false |}])
  ∧ r6.2 = Some ([{| Lurkers.name := "Ann"; Lurkers.entry_joined := t1;
                     Lurkers.entry_is_live := true |}], [])
  ∧ Lurkers.session_lurkers r6.1 !! "Ann"%string
    = Some {| Lurkers.joined := t1; Lurkers.is_live := true |}
  ∧ Lurkers.trace r6.1 = [Lurkers.LurkNotify "Ann" true; Lurkers.LogLurker "Ann"].
Proof. vm_compute. repeat split; done. Qed.

(** ** First sightings *)

(** The effects of one turn of the loop: none, unless the row's name is
    neither in the registry nor among the known names; then the name
    becomes known, is logged, and [play_lurk_notify] is called. *)
Lemma refresh_one_effects (now : Z) (live_ids : gset string) (clk : nat → Z)
    (st : Lurkers.state) (l r : list Lurkers.entry) (i : nat) (c : Lurkers.chatter) :
  let u := Lurkers.user_name c in
  let st' := (Lurkers.refresh_one now live_ids clk (st, l, r, i) c).1.1.1 in
  (Lurkers.session_lurkers st !! u = None ∧ (u ∉ Lurkers.known_lurkers st)
   ∧ Lurkers.known_lurkers st' = {[u]} ∪ Lurkers.known_lurkers st
   ∧ (∃ b, Lurkers.trace st'
           = Lurkers.LurkNotify u b :: Lurkers.LogLurker u :: Lurkers.trace st))
  ∨ ((is_Some (Lurkers.session_lurkers st !! u) ∨ u ∈ Lurkers.known_lurkers st)
     ∧ Lurkers.known_lurkers st' = Lurkers.known_lurkers st
     ∧ Lurkers.trace st' = Lurkers.trace st).
Proof.
  intros u st'. subst st'. unfold Lurkers.refresh_one. fold u.
  destruct (Lurkers.session_lurkers st !! u) as [s|] eqn:Hl.
  - right. simpl. destruct (Lurkers.at_least_seconds _ _); simpl; eauto.
  - simpl. unfold Lurkers.first_sighting. simpl.
    destruct (decide (u ∈ Lurkers.known_lurkers st)) as [Hk | Hk].
    + right. destruct (Lurkers.at_least_seconds 300 _); simpl; eauto.
    + left. unfold Lurkers.play_lurk_notify. simpl.
      destruct (Lurkers.at_least_seconds Lurkers.sound_cooldown_seconds _);
        destruct (Lurkers.at_least_seconds 300 _); simpl; eauto 10.
Qed.

Lemma refresh_one_inv (now : Z) (live_ids : gset string) (clk : nat → Z)
    (a : Lurkers.acc) (c : Lurkers.chatter) :
  sightings_inv a.1.1.1 →
  sightings_inv (Lurkers.refresh_one now live_ids clk a c).1.1.1.
Proof.
  destruct a as [[[st l] r] i]. intros Hinv. change (sightings_inv st) in Hinv.
  destruct Hinv as [Hdom Hcnt].
  pose proof (refresh_one_sessions now live_ids clk st l r i c) as Hs.
  destruct (refresh_one_effects now live_ids clk st l r i c)
    as [(Hl & Hk & Hk' & b & Ht) | (Hold & Hk' & Ht)];
    split.
  - rewrite Hk', Hs, dom_insert_L, Hdom. done.
  - intros un. destruct (Hcnt un) as (Hlog & Hnot & Hcue).
    rewrite Ht, Hk'. simpl.
    destruct (decide (Lurkers.user_name c = un)) as [<- | Hne].
    + destruct (decide (_ ∈ _ ∪ _)) as [_ | Hn];
        [| destruct Hn; apply elem_of_union_l, elem_of_singleton; done].
      destruct (decide (Lurkers.user_name c ∈ Lurkers.known_lurkers st)); [done |].
      destruct b; simpl; rewrite ?decide_True by done; lia.
    + assert (Hiff : un ∈ {[Lurkers.user_name c]} ∪ Lurkers.known_lurkers st
                     ↔ un ∈ Lurkers.known_lurkers st).
      { rewrite elem_of_union, elem_of_singleton. naive_solver. }
      destruct (decide (un ∈ {[Lurkers.user_name c]} ∪ Lurkers.known_lurkers st))
        as [Hin | Hin];
        destruct (decide (un ∈ Lurkers.known_lurkers st)) as [Hin' | Hin'];
        try (exfalso; tauto);
        destruct b; simpl; rewrite ?decide_False by done; lia.
  - rewrite Hk', Hs, dom_insert_L, Hdom.
    assert (Lurkers.user_name c ∈ dom (Lurkers.session_lurkers st)).
    { destruct Hold as [Hsome | Hin]; [by apply elem_of_dom | by rewrite <- Hdom]. }
    set_solver.
  - intros un. rewrite Ht, Hk'. apply Hcnt.
Qed.

Lemma refresh_fold_inv (now : Z) (live_ids : gset string) (clk : nat → Z)
    (cs : list Lurkers.chatter) (a : Lurkers.acc) :
  sightings_inv a.1.1.1 →
  sightings_inv (foldl (Lurkers.refresh_one now live_ids clk) a cs).1.1.1
  ∧ dom (Lurkers.session_lurkers
           (foldl (Lurkers.refresh_one now live_ids clk) a cs).1.1.1)
    = dom (Lurkers.session_lurkers a.1.1.1)
      ∪ list_to_set (map Lurkers.user_name cs).
Proof.
  revert a. induction cs as [|c cs IH]; intros a Ha.
  - simpl. split; [done | set_solver].
  - simpl. destruct (IH _ (refresh_one_inv now live_ids clk a c Ha)) as [Hi Hd].
    split; [done |]. rewrite Hd. destruct a as [[[st l] r] i].
    rewrite refresh_one_sessions, dom_insert_L. set_solver.
Qed.

Lemma step_inv (st : Lurkers.state) (ev : Lurkers.event) :
  sightings_inv st →
  sightings_inv (Lurkers.step st ev)
  ∧ Lurkers.known_lurkers (Lurkers.step st ev)
    = Lurkers.known_lurkers st ∪ appeared [ev].
Proof.
  intros Hinv. destruct ev as [now [[|c cs]|] live clk | t]; simpl.
  - split; [done | set_solver].
  - destruct (refresh_fold_inv now live clk (c :: cs) (st, [], [], O) Hinv) as [Hi Hd].
    simpl in Hi, Hd. destruct (foldl _ _ cs) as [[[st' l] r] i]. simpl in *.
    split; [done |]. destruct Hi as [-> _]. destruct Hinv as [-> _].
    rewrite Hd. set_solver.
  - split; [done | set_solver].
  - split; [done | set_solver].
Qed.

Lemma run_inv (evs : list Lurkers.event) (st : Lurkers.state) :
  sightings_inv st →
  sightings_inv (Lurkers.run st evs)
  ∧ Lurkers.known_lurkers (Lurkers.run st evs)
    = Lurkers.known_lurkers st ∪ appeared evs.
Proof.
  revert st. induction evs as [|ev evs IH]; intros st Hinv.
  - simpl. split; [done | set_solver].
  - simpl. destruct (step_inv st ev Hinv) as [Hi Hk].
    destruct (IH _ Hi) as [Hi' Hk']. split; [done |].
    rewrite Hk', Hk. destruct ev as [now [cs|] live clk | t]; simpl; set_solver.
Qed.

Lemma init_inv : sightings_inv Lurkers.init.
Proof. split; [simpl; by rewrite dom_empty_L | done]. Qed.

(** C9, as the code has it. Over the life of the process, whatever is
    refreshed and whatever other sounds are played: the known names are
    the names that have appeared in a snapshot; for each of them the log
    entry was written once and [play_lurk_notify] was called once, for
    any other name never; the audible cue was played at most once for a
    name. At its call [play_lurk_notify] plays the cue exactly when at
    least five seconds have passed since the last sound. *)
Theorem lurker_first_sighting_notified_once (evs : list Lurkers.event)
    (un : string) (t : Z) (st0 : Lurkers.state) :
  let st := Lurkers.run Lurkers.init evs in
  Lurkers.known_lurkers st = appeared evs
  ∧ Lurkers.count_log un (Lurkers.trace st)
    = (if decide (un ∈ appeared evs) then 1 else 0)%nat
  ∧ Lurkers.count_notify un (Lurkers.trace st)
    = (if decide (un ∈ appeared evs) then 1 else 0)%nat
  ∧ (Lurkers.count_cue un (Lurkers.trace st) <= 1)%nat
  ∧ Lurkers.trace (Lurkers.play_lurk_notify un t st0)
    = Lurkers.LurkNotify un (bool_decide (5 * 1000000 <= t - Lurkers.last_sound_time st0))
      :: Lurkers.trace st0.
Proof.
  intros st. subst st.
  destruct (run_inv evs Lurkers.init init_inv) as [[_ Hcnt] Hk].
  assert (Hk' : Lurkers.known_lurkers (Lurkers.run Lurkers.init evs) = appeared evs).
  { rewrite Hk. simpl. set_solver. }
  destruct (Hcnt un) as (Hlog & Hnot & Hcue). rewrite Hk' in Hlog.
  split; [done |]. split; [done |]. split; [congruence |]. split.
  - rewrite Hnot, Hlog in Hcue. destruct (decide _); lia.
  - unfold Lurkers.play_lurk_notify, Lurkers.at_least_seconds,
      Lurkers.sound_cooldown_seconds.
    destruct (5 * 1000000 <=? t - Lurkers.last_sound_time st0) eqn:Hc.
    + apply Z.leb_le in Hc. by rewrite bool_decide_eq_true_2.
    + apply Z.leb_gt in Hc. rewrite bool_decide_eq_false_2 by lia. done.
Qed.

Lemma refresh_one_known_frozen (now : Z) (live_ids : gset string) (clk : nat → Z)
    (a : Lurkers.acc) (c : Lurkers.chatter) (un : string) :
  un ∈ Lurkers.known_lurkers a.1.1.1 →
  let st' := (Lurkers.refresh_one now live_ids clk a c).1.1.1 in
  un ∈ Lurkers.known_lurkers st'
  ∧ Lurkers.count_cue un (Lurkers.trace st')
    = Lurkers.count_cue un (Lurkers.trace a.1.1.1).
Proof.
  destruct a as [[[st l] r] i]. intros Hin st'. subst st'.
  change (un ∈ Lurkers.known_lurkers st) in Hin.
  destruct (refresh_one_effects now live_ids clk st l r i c)
    as [(Hl & Hk & -> & b & ->) | (_ & -> & ->)]; [| done].
  split; [apply elem_of_union_r; done |].
  simpl. destruct b; [| done].
  rewrite decide_False; [done |]. intros Heq. subst un. done.
Qed.

Lemma run_known_frozen (evs : list Lurkers.event) (st : Lurkers.state) (un : string) :
  un ∈ Lurkers.known_lurkers st →
  Lurkers.count_cue un (Lurkers.trace (Lurkers.run st evs))
  = Lurkers.count_cue un (Lurkers.trace st).
Proof.
  revert st. induction evs as [|ev evs IH]; intros st Hin; [done |].
  simpl.
  assert (Hstep : un ∈ Lurkers.known_lurkers (Lurkers.step st ev)
                  ∧ Lurkers.count_cue un (Lurkers.trace (Lurkers.step st ev))
                    = Lurkers.count_cue un (Lurkers.trace st)).
  { destruct ev as [now [cs|] live clk | t]; simpl; try done.
    destruct cs as [|c cs]; [done |].
    assert (Hfold : ∀ cs a, un ∈ Lurkers.known_lurkers a.1.1.1 →
              un ∈ Lurkers.known_lurkers
                     (foldl (Lurkers.refresh_one now live clk) a cs).1.1.1
              ∧ Lurkers.count_cue un
                  (Lurkers.trace (foldl (Lurkers.refresh_one now live clk) a cs).1.1.1)
                = Lurkers.count_cue un (Lurkers.trace a.1.1.1)).
    { clear. induction cs as [|c cs IH]; intros a Ha; [done |].
      simpl. destruct (refresh_one_known_frozen now live clk a c un Ha) as [H1 H2].
      destruct (IH _ H1) as [H3 H4]. split; [done | congruence]. }
    specialize (Hfold (c :: cs) (st, [], [], O) Hin).
    destruct (foldl _ _ (c :: cs)) as [[[st' l] r] i]. done. }
  destruct Hstep as [Hin' Hc].
  change (foldl Lurkers.step (Lurkers.step st ev) evs)
    with (Lurkers.run (Lurkers.step st ev) evs).
  rewrite IH by done. done.
Qed.

(** C9, as the claim has it, fails: two names seen for the first time
    in one snapshot. Both are logged and [play_lurk_notify] is called
    for both, but the second call comes within five seconds of the
    sound of the first, so the second name gets no audible cue, then or
    ever after. *)
Lemma lurker_second_newcomer_gets_no_cue :
  let t := 1000 * 1000000 in
  let ann := {| Lurkers.user_id := "11"; Lurkers.user_name := "Ann" |} in
  let bob := {| Lurkers.user_id := "12"; Lurkers.user_name := "Bob" |} in
  let st := Lurkers.run Lurkers.init [Lurkers.Refresh t (Some [ann; bob]) ∅ (λ _, t)] in
  Lurkers.trace st
  = [Lurkers.LurkNotify "Bob" false; Lurkers.LogLurker "Bob";
     Lurkers.LurkNotify "Ann" true; Lurkers.LogLurker "Ann"]
  ∧ Lurkers.count_log "Bob" (Lurkers.trace st) = 1%nat
  ∧ Lurkers.count_cue "Bob" (Lurkers.trace st) = 0%nat
  ∧ (∀ evs, Lurkers.count_cue "Bob" (Lurkers.trace (Lurkers.run st evs)) = 0%nat).
Proof.
  split; [vm_compute; reflexivity |]. split; [vm_compute; reflexivity |].
  split; [vm_compute; reflexivity |].
  intros evs. rewrite run_known_frozen; [vm_compute; reflexivity |].
  vm_compute. set_solver.
Qed.

(** ** The guard of the send operation *)

Lemma bounce_spec (now_time : Q) (st : Send.state) :
  Send.bounce now_time st = true
  ↔ ∃ last, Send.last_send_time st = Some last ∧ (now_time - last < 3 # 2)%Q.
Proof.
  unfold Send.bounce, Send.Qltb. destruct (Send.last_send_time st) as [last|].
  - rewrite negb_true_iff. split.
    + intros H. exists last. split; [done |].
      apply Qnot_le_lt. intros Hle. apply Qle_bool_iff in Hle. congruence.
    + intros (l & [= <-] & Hlt).
      destruct (Qle_bool (3 # 2) (now_time - last)) eqn:Hb; [| done].
      apply Qle_bool_iff in Hb. exfalso. by apply (Qlt_not_le _ _ Hlt).
  - split; [done |]. intros (l & ? & _). done.
Qed.

Lemma send_records_time (now_time : Q) (send_ok : bool) (st : Send.state) :
  Send.bounce now_time st = false →
  Send.last_send_time (Send.send_chat_message now_time send_ok st) = Some now_time.
Proof.
  intros Hb. unfold Send.send_chat_message. rewrite Hb. clear Hb.
  destruct st as [lst box tgt sock yt lv tr]; simpl.
  destruct (negb (Py.truthy (Py.strip box))); [done |].
  unfold Send.send_twitch, Send.send_youtube; simpl.
  destruct tgt, sock, send_ok, yt, lv; simpl; done.
Qed.

(** C10, as the code has it. An invocation that passes the guard
    records its time. An invocation made less than 1.5 seconds after
    the recorded time, the time of the last invocation that passed the
    guard, changes nothing: no write to a socket, no message box, the
    input text as it was, and the recorded time as it was. *)
Theorem send_ignored_within_bounce_window (st st' : Send.state) (t1 t2 : Q)
    (ok1 ok2 : bool) :
  Send.bounce t1 st = false →
  (t2 - t1 < 3 # 2)%Q →
  Send.last_send_time st' = Some t1 →
  Send.last_send_time (Send.send_chat_message t1 ok1 st) = Some t1
  ∧ Send.send_chat_message t2 ok2 st' = st'.
Proof.
  intros Hpass Hlt Hlast. split; [by apply send_records_time |].
  unfold Send.send_chat_message.
  assert (Send.bounce t2 st' = true) as ->; [| done].
  apply bounce_spec. eauto.
Qed.

Lemma send_ignored_within_bounce_window_witness :
  let st1 := Send.send_chat_message 0 true (type_text "hello" send_ready) in
  let st' := type_text "again" st1 in
  Send.bounce 0 (type_text "hello" send_ready) = false
  ∧ (1 - 0 < 3 # 2)%Q
  ∧ Send.last_send_time st' = Some 0%Q
  ∧ Send.send_chat_message 1 true st' = st'
  ∧ Send.trace st' = [Send.AppendOwn "hello"; Send.SockSend "hello"].
Proof.
  split; [reflexivity |]. split; [reflexivity |]. split; [reflexivity |].
  split; [| reflexivity].
  exact (proj2 (send_ignored_within_bounce_window
                  (type_text "hello" send_ready)
                  (type_text "again"
                     (Send.send_chat_message 0 true (type_text "hello" send_ready)))
                  0 1 true true eq_refl eq_refl eq_refl)).
Defined.

(** C10, as the claim has it, fails: three invocations at 0 s, 1 s and
    1.6 s. The second is ignored. The third comes 0.6 seconds after the
    second, but 1.6 seconds after the first, the last one that passed
    the guard: it is not ignored, the text is written to the socket and
    the input box is emptied. *)
Lemma send_third_press_goes_through :
  let st1 := Send.send_chat_message 0 true (type_text "one" send_ready) in
  let st2 := Send.send_chat_message 1 true (type_text "two" st1) in
  let st3 := Send.send_chat_message (8 # 5) true st2 in
  ((8 # 5) - 1 < 3 # 2)%Q
  ∧ st2 = type_text "two" st1
  ∧ st3 ≠ st2
  ∧ Send.trace st3 = [Send.AppendOwn "two"; Send.SockSend "two";
                      Send.AppendOwn "one"; Send.SockSend "one"]
  ∧ Send.chat_message_box st2 = "two"%string
  ∧ Send.chat_message_box st3 = EmptyString.
Proof.
  split; [reflexivity |]. split; [reflexivity |]. split.
  - intros H. apply (f_equal Send.chat_message_box) in H. vm_compute in H. done.
  - repeat split; reflexivity.
Qed.

(** ** Further properties of the code *)

Example privmsg_range_beyond_body :
  Irc.handle_privmsg
    "@display-name=Bob;emotes=25:6-100/x:1-y/33:0-4 :bob!bob@bob.tmi.twitch.tv PRIVMSG #chan :Hello Kappa world"
  = Irc.Returned (Some {| Irc.author := "Bob"; Irc.body := "Hello Kappa world";
                          Irc.emote_map := {[ "Hello"%string := "33"%string ]} |}).
Proof. vm_compute. reflexivity. Qed.


Lemma yt_success_next_poll_witness :
  let resp := {| Yt.nextPageToken := Some "T2"%string;
                 Yt.pollingIntervalMillis := Some 2000;
                 Yt.items := [{| Yt.displayMessage := Some "hello"%string;
                                 Yt.displayName := Some "Ann"%string |}] |} in
  let st := yt_polling_state (Some "T1"%string) in
  let st1 := Yt.fetch false (Yt.ListOk resp) st in
  (false = false ∨ Yt.items resp = [])
  ∧ Yt.yt_polling st = true ∧ Yt.yt_stop st = false
  ∧ Yt.yt_next_page st1 = Some "T2"%string
  ∧ Yt.timers st1 = [(O, (5000, Yt.PollYtChat))].
Proof.
  exact (conj (or_introl eq_refl) (conj eq_refl (conj eq_refl
           (yt_success_next_poll false
              {| Yt.nextPageToken := Some "T2"%string;
                 Yt.pollingIntervalMillis := Some 2000;
                 Yt.items := [{| Yt.displayMessage := Some "hello"%string;
                                 Yt.displayName := Some "Ann"%string |}] |}
              (yt_polling_state (Some "T1"%string))
              (or_introl eq_refl) eq_refl eq_refl)))).
Defined.



(** The fuel of [drain] is enough: what stays in the buffer after a
    receive holds no complete line. *)
Lemma cut_line_cons (c : ascii) (rest : string) :
  Irc.cut_line (String c rest)
  = if Py.startswith (String "013" (String "010" EmptyString)) (String c rest)
    then Some (EmptyString, Py.drop 1 rest)
    else '(l, r) ← Irc.cut_line rest; Some (String c l, r).
Proof. reflexivity. Qed.

Lemma cut_line_shorter (buf l r : string) :
  Irc.cut_line buf = Some (l, r) → (String.length r < String.length buf)%nat.
Proof.
  revert l r. induction buf as [|c rest IH]; intros l r; [done |].
  rewrite cut_line_cons. destruct (Py.startswith _ (String c rest)).
  - intros [= <- <-]. destruct rest; simpl; lia.
  - destruct (Irc.cut_line rest) as [[l' r']|] eqn:Hc; [| done].
    cbn [mbind option_bind]. intros [= <- <-].
    specialize (IH _ _ eq_refl). simpl. lia.
Qed.

Lemma drain_complete (fuel : nat) (buf : string) :
  (String.length buf <= fuel)%nat → Irc.cut_line (Irc.drain fuel buf).2 = None.
Proof.
  revert buf. induction fuel as [|fuel IH]; intros buf Hlen.
  - destruct buf; [done | simpl in Hlen; lia].
  - simpl. destruct (Irc.cut_line buf) as [[l r]|] eqn:Hc; [| done].
    apply cut_line_shorter in Hc as Hr.
    specialize (IH r ltac:(lia)).
    destruct (Irc.drain fuel r) as [ls r']. done.
Qed.

Example drain_two_lines :
  Irc.drain 14 ("PING :a" ++ String "013" (String "010" "x y" ++ String "013" (String "010" "re")))
  = (["PING :a"; "x y"]%string, "re"%string).
Proof. reflexivity. Qed.

Example irc_ping_and_privmsg :
  let crlf := String "013" (String "010" EmptyString) in
  let st := Irc.run (Irc.init "chan")
              [Irc.StartRequested "oauth:abc" true; Irc.ConnectOk true;
               Irc.Recv ("PING :tmi.twitch.tv" ++ crlf
                         ++ ":bob!bob@bob.tmi.twitch.tv PRIVMSG #chan :hi all" ++ crlf
                         ++ ":bob!bob@bob.tmi.twitch.tv PRIVMSG #other :hi");
               Irc.UiRun false; Irc.UiRun false; Irc.UiRun false] in
  Irc.trace st
  = [Irc.Display {| Irc.author := "bob"; Irc.body := "hi all"; Irc.emote_map := ∅ |};
     Irc.SendPong; Irc.SockConnected; Irc.Spawn]
  ∧ Irc.at_pc st = Irc.Reading ":bob!bob@bob.tmi.twitch.tv PRIVMSG #other :hi"
  ∧ Irc.tw_state st = Irc.Connected.
Proof. vm_compute. repeat split; done. Qed.

Example irc_stop_while_reading :
  let st := Irc.run (Irc.init "chan")
              [Irc.StartRequested "oauth:abc" true; Irc.ConnectOk true;
               Irc.StopRequested; Irc.ReadError] in
  Irc.at_pc st = Irc.Idle ∧ Irc.tw_state st = Irc.Disconnected
  ∧ Irc.chat_socket st = false ∧ Irc.recent_waits (Irc.trace st) = [].
Proof. vm_compute. repeat split; done. Qed.

Example irc_terminal_failures :
  Irc.tw_state (Irc.run (Irc.init "chan") [Irc.StartRequested "oauth:abc" false])
  = Irc.Failed
  ∧ Irc.at_pc (Irc.run (Irc.init "chan") [Irc.StartRequested "oauth:abc" false])
    = Irc.Idle
  ∧ Irc.tw_state (Irc.run (Irc.init "chan")
                    [Irc.StartRequested "oauth:abc" true; Irc.UserInfoMissing])
    = Irc.Failed
  ∧ Irc.trace (Irc.run (Irc.init "chan") [Irc.StartRequested "  " true])
    = [Irc.SetLabel Irc.LblNoToken; Irc.Spawn].
Proof. vm_compute. repeat split; done. Qed.

(** ** The message-id store *)

Lemma last_20_snoc (l : list string) (x : string) :
  (let l' := MsgIds.last_20 l ++ [x] in
   if (20 <? length l')%nat then drop 1 l' else l')
  = MsgIds.last_20 (l ++ [x]).
Proof.
  unfold MsgIds.last_20. simpl. rewrite !length_app, length_drop. simpl.
  destruct (20 <? length l - (length l - 20) + 1)%nat eqn:Hc.
  - apply Nat.ltb_lt in Hc.
    rewrite <- (drop_app_le l [x]) by lia.
    rewrite drop_drop. f_equal. lia.
  - apply Nat.ltb_ge in Hc.
    rewrite <- (drop_app_le l [x]) by lia. f_equal. lia.
Qed.

Lemma ids_for_snoc (key : string) (lines : list string) (line : string) :
  MsgIds.ids_for key (lines ++ [line])
  = MsgIds.ids_for key lines ++ MsgIds.ids_for key [line].
Proof.
  induction lines as [|l lines IH]; [done |].
  simpl. destruct (MsgIds.tagged_ids l) as [i u].
  destruct (_ && _); simpl; by rewrite IH.
Qed.

Lemma ids_for_one (key line : string) :
  MsgIds.ids_for key [line]
  = let '(msg_id, user) := MsgIds.tagged_ids line in
    if Py.startswith "@" line && Py.truthy msg_id && Py.truthy user
       && bool_decide (Py.lower user = key)
    then [msg_id] else [].
Proof.
  cbn [MsgIds.ids_for]. destruct (MsgIds.tagged_ids line) as [i u].
  by destruct (_ && _).
Qed.

(** After any sequence of chat lines, the store holds for every user
    (by lower-cased display name) the last 20 message ids received for
    that user, oldest first, and holds no entry for a user without ids:
    no list is ever longer than 20, and the ids that leave are the
    oldest. *)
Theorem msg_id_store_keeps_last_20 (lines : list string) (key : string) :
  let store := foldl MsgIds.record_line ∅ lines in
  store !! key
  = match MsgIds.ids_for key lines with
    | [] => None
    | ids => Some (MsgIds.last_20 ids)
    end
  ∧ (length (default [] (store !! key)) <= 20)%nat.
Proof.
  intros store. subst store.
  assert (H : foldl MsgIds.record_line ∅ lines !! key
              = match MsgIds.ids_for key lines with
                | [] => None
                | ids => Some (MsgIds.last_20 ids)
                end).
  { induction lines as [|line lines IH] using rev_ind; [done |].
    rewrite foldl_snoc, ids_for_snoc, ids_for_one.
    unfold MsgIds.record_line at 1.
    destruct (MsgIds.tagged_ids line) as [i u]. cbn [fst snd].
    destruct (Py.startswith "@" line); cbn [andb];
      [| by rewrite app_nil_r].
    unfold MsgIds.store_msg_id.
    destruct (Py.truthy i && Py.truthy u) eqn:Hiu; cbn [andb];
      [| by rewrite app_nil_r].
    destruct (decide (Py.lower u = key)) as [<- | Hne].
    - rewrite bool_decide_eq_true_2 by done.
      rewrite lookup_insert_eq, IH.
      destruct (MsgIds.ids_for (Py.lower u) lines) as [|a ids] eqn:Hids.
      + done.
      + cbn [default app]. f_equal. unfold id.
        change (a :: ids ++ [i]) with ((a :: ids) ++ [i]).
        rewrite <- (last_20_snoc (a :: ids) i). done.
    - rewrite bool_decide_eq_false_2 by done.
      rewrite lookup_insert_ne by done. by rewrite app_nil_r. }
  split; [done |]. rewrite H.
  destruct (MsgIds.ids_for key lines) as [|a ids]; simpl; [lia |].
  unfold MsgIds.last_20. rewrite length_drop. simpl. lia.
Qed.

Example msg_id_store_example :
  foldl MsgIds.record_line ∅
    ["@display-name=Bob;id=m1 :bob!bob@bob.tmi.twitch.tv PRIVMSG #chan :hi";
     "@display-name=BOB;id=m2 :bob!bob@bob.tmi.twitch.tv PRIVMSG #chan :yo";
     "@id=m3 :ann!ann@ann.tmi.twitch.tv PRIVMSG #chan :no display name";
     ":ann!ann@ann.tmi.twitch.tv PRIVMSG #chan :untagged"]%string
  = {[ "bob"%string := ["m1"; "m2"]%string ]}.
Proof. vm_compute. reflexivity. Qed.

(** ** Moderation *)

Lemma delete_loop_spec (resp : nat → Moderation.response) (ids : list string)
    (i d f : nat) (st : Moderation.state) :
  let r := Moderation.delete_loop resp i ids d f st in
  r.1.2 = (d + Moderation.accepted_among resp i (length ids))%nat
  ∧ (r.1.2 + r.2 = d + f + length ids)%nat
  ∧ Moderation.requested (Moderation.trace r.1.1)
    = rev ids ++ Moderation.requested (Moderation.trace st)
  ∧ Moderation.queued (Moderation.trace r.1.1) = Moderation.queued (Moderation.trace st)
  ∧ Moderation.sent (Moderation.trace r.1.1) = Moderation.sent (Moderation.trace st)
  ∧ Moderation.irc_sock r.1.1 = Moderation.irc_sock st
  ∧ Moderation.auto_channel r.1.1 = Moderation.auto_channel st
  ∧ Moderation.msg_id_store r.1.1 = Moderation.msg_id_store st.
Proof.
  revert i d f st. induction ids as [|mid ids IH]; intros i d f st.
  - simpl. repeat split; lia.
  - cbn [Moderation.delete_loop length Moderation.accepted_among].
    destruct (Moderation.accepted (resp i)).
    + destruct (IH (S i) (S d) f (Moderation.emit (Moderation.DeleteRequest mid) st))
        as (H1 & H2 & H3 & H4 & H5 & H6 & H7 & H8).
      rewrite H1, H3, H4, H5, H6, H7, H8. simpl.
      repeat split; try lia; try done. by rewrite <- app_assoc.
    + destruct (IH (S i) d (S f) (Moderation.emit (Moderation.DeleteRequest mid) st))
        as (H1 & H2 & H3 & H4 & H5 & H6 & H7 & H8).
      rewrite H1, H3, H4, H5, H6, H7, H8. simpl.
      repeat split; try lia; try done. by rewrite <- app_assoc.
Qed.

Lemma send_irc_command_effects (command : string) (send_ok : bool)
    (st : Moderation.state) :
  let st' := Moderation.send_irc_command command send_ok st in
  Moderation.sent (Moderation.trace st')
  = (if Moderation.irc_sock st && send_ok
     then [Moderation.privmsg_text (Moderation.auto_channel st) command] else [])
    ++ Moderation.sent (Moderation.trace st)
  ∧ Moderation.queued (Moderation.trace st') = Moderation.queued (Moderation.trace st)
  ∧ Moderation.requested (Moderation.trace st') = Moderation.requested (Moderation.trace st)
  ∧ Moderation.msg_id_store st' = Moderation.msg_id_store st.
Proof.
  unfold Moderation.send_irc_command.
  destruct (Moderation.irc_sock st), send_ok; simpl; done.
Qed.

(** What clearing a user's messages does on the Twitch side. With an
    id of the broadcaster, a token and stored ids for the user, one
    delete request is made per stored id, oldest first, and the user's
    stored ids are dropped; otherwise no request is made and the store
    is left alone. Exactly one status message is queued: the fallback
    one without those three, else the count of deletions when at least
    one request was accepted, else the timeout one; the message that
    none was recent is never the outcome. The command
    [/timeout <user> 1] is written to the socket (when there is one and
    the write succeeds) exactly when no request was accepted. *)
Theorem api_delete_outcome (username : string) (local : nat) (send_ok : bool)
    (resp : nat → Moderation.response) (st : Moderation.state) :
  let key := Py.lower username in
  let ids := default [] (Moderation.msg_id_store st !! key) in
  let creds := Py.truthy_opt (Moderation.my_id st)
               && Py.truthy (Py.strip (Moderation.token st))
               && bool_decide (ids ≠ []) in
  let d := Moderation.accepted_among resp 0 (length ids) in
  let st' := Moderation.api_delete username local send_ok resp st in
  Moderation.queued (Moderation.trace st')
  = (if creds
     then if (0 <? d)%nat then Moderation.DeletedOnTwitch d local
          else Moderation.ClearedTimeoutUsed local
     else Moderation.ClearedWithFallback local)
    :: Moderation.queued (Moderation.trace st)
  ∧ Moderation.requested (Moderation.trace st')
    = (if creds then rev ids else []) ++ Moderation.requested (Moderation.trace st)
  ∧ Moderation.msg_id_store st'
    = (if creds then delete key (Moderation.msg_id_store st)
       else Moderation.msg_id_store st)
  ∧ Moderation.sent (Moderation.trace st')
    = (if Moderation.irc_sock st && send_ok && (negb creds || (d =? 0)%nat)
       then [Moderation.privmsg_text (Moderation.auto_channel st)
               ("/timeout " ++ username ++ " 1")]
       else [])
      ++ Moderation.sent (Moderation.trace st).
Proof.
  intros key ids creds d st'. subst st'. unfold Moderation.api_delete.
  fold key. fold ids.
  assert (Hcreds : negb (Py.truthy_opt (Moderation.my_id st))
                   || negb (Py.truthy (Py.strip (Moderation.token st)))
                   || negb (bool_decide (ids ≠ [])) = negb creds).
  { subst creds. by rewrite !negb_andb. }
  rewrite Hcreds. destruct creds eqn:Hc; cbn [negb].
  - pose proof (delete_loop_spec resp ids O O O st) as H.
    destruct (Moderation.delete_loop resp 0 ids 0 0 st) as [[st1 dd] ff].
    cbn [fst snd] in H. destruct H as (Hd & Hsum & Hreq & Hq & Hs & Hsock & Hch & Hst).
    assert (dd = d) as -> by (subst d; lia).
    assert (Hids : ids ≠ []).
    { subst creds. apply andb_true_iff in Hc as [_ Hc].
      by apply bool_decide_eq_true in Hc. }
    assert (Hlen : (0 < length ids)%nat) by (destruct ids; [done | simpl; lia]).
    destruct (0 <? d)%nat eqn:Hpos.
    + apply Nat.ltb_lt in Hpos. simpl.
      rewrite Hq, Hreq, Hs, Hst.
      replace (d =? 0)%nat with false by (symmetry; apply Nat.eqb_neq; lia).
      rewrite andb_false_r. done.
    + apply Nat.ltb_ge in Hpos.
      assert ((0 <? ff)%nat = true) as -> by (apply Nat.ltb_lt; lia).
      destruct (send_irc_command_effects ("/timeout " ++ username ++ " 1") send_ok
                  (Moderation.set_store (delete key (Moderation.msg_id_store st1)) st1))
        as (Hs' & Hq' & Hr' & Hst').
      simpl in *. rewrite Hq', Hr', Hs', Hst'. simpl.
      rewrite Hq, Hreq, Hs, Hst, Hsock, Hch.
      replace (d =? 0)%nat with true by (symmetry; apply Nat.eqb_eq; lia).
      rewrite andb_true_r. done.
  - destruct (send_irc_command_effects ("/timeout " ++ username ++ " 1") send_ok st)
      as (Hs' & Hq' & Hr' & Hst').
    simpl in *. rewrite Hq', Hr', Hs', Hst'. rewrite andb_true_r. done.
Qed.

Lemma delete_line_middle (pre rest : list string) (x : string) :
  Moderation.delete_line (pre ++ x :: rest) (S (length pre)) = pre ++ rest.
Proof.
  unfold Moderation.delete_line. simpl. rewrite Nat.sub_0_r.
  rewrite take_app_length.
  change (pre ++ x :: rest) with (pre ++ [x] ++ rest).
  rewrite app_assoc.
  rewrite (drop_app_length' (pre ++ [x])) by (rewrite length_app; simpl; lia).
  done.
Qed.

Lemma local_wipe_aux (username : string) (lines pre : list string) :
  foldl Moderation.delete_line (pre ++ lines)
    (rev (Moderation.lines_to_delete username (S (length pre)) lines))
  = pre ++ filter (λ l, Moderation.mentions username l = false) lines.
Proof.
  revert pre. induction lines as [|x rest IH]; intros pre; [done |].
  cbn [Moderation.lines_to_delete]. rewrite filter_cons.
  assert (Hshift : pre ++ x :: rest = (pre ++ [x]) ++ rest)
    by (by rewrite <- app_assoc).
  assert (Hlen : S (length pre) = length (pre ++ [x]))
    by (rewrite length_app; simpl; lia).
  destruct (Moderation.mentions username x) eqn:Hm.
  - rewrite decide_False by done.
    cbn [rev]. rewrite foldl_app. simpl.
    rewrite Hshift at 1. rewrite Hlen at 1. rewrite IH.
    rewrite <- app_assoc. simpl. apply delete_line_middle.
  - rewrite decide_True by done.
    rewrite Hshift, Hlen, IH. by rewrite <- app_assoc.
Qed.

(** The local wipe removes exactly the lines that mention the user
    (whatever the case of the letters), keeps the other lines in their
    order, and counts the lines it removed: deleting the marked lines
    from the last to the first keeps the line numbers of the ones still
    to delete valid. *)
Theorem local_wipe_removes_mentions (username : string) (lines : list string) :
  let r := Moderation.local_wipe username lines in
  r.1 = filter (λ l, Moderation.mentions username l = false) lines
  ∧ r.2 = length (filter (λ l, Moderation.mentions username l = true) lines)
  ∧ (∀ l, l ∈ r.1 → Moderation.mentions username l = false)
  ∧ (length r.1 + r.2 = length lines)%nat.
Proof.
  intros r. subst r. unfold Moderation.local_wipe. cbn [fst snd].
  assert (H1 : foldl Moderation.delete_line lines
                 (rev (Moderation.lines_to_delete username 1 lines))
               = filter (λ l, Moderation.mentions username l = false) lines)
    by apply (local_wipe_aux username lines []).
  assert (H2 : ∀ i, length (Moderation.lines_to_delete username i lines)
               = length (filter (λ l, Moderation.mentions username l = true) lines)).
  { clear. induction lines as [|x rest IH]; intros i; [done |].
    cbn [Moderation.lines_to_delete]. rewrite filter_cons.
    destruct (Moderation.mentions username x).
    - rewrite decide_True by done. simpl. by rewrite IH.
    - rewrite decide_False by done. apply IH. }
  rewrite H1, H2. split; [done |]. split; [done |]. split.
  - intros l Hl. by apply list_elem_of_filter in Hl as [Hl _].
  - clear. induction lines as [|x rest IH]; [done |].
    rewrite !filter_cons. destruct (Moderation.mentions username x).
    + rewrite decide_False by done. rewrite decide_True by done. simpl. lia.
    + rewrite decide_True by done. rewrite decide_False by done. simpl. lia.
Qed.

Example clear_messages_example :
  let st := {| Moderation.irc_sock := true; Moderation.auto_channel := "chan";
               Moderation.my_id := Some "77"%string; Moderation.token := "oauth:abc";
               Moderation.msg_id_store := {[ "bob"%string := ["m1"; "m2"]%string ]};
               Moderation.mute_list := [];
               Moderation.chat_lines := ["10:00 Ann: hi"; "10:01 Bob: yo";
                                         "10:02 Ann: hi BOB"; "10:03 Cy: ok"]%string;
               Moderation.trace := [] |} in
  let all_fail := Moderation.ctx_clear_messages "Bob" true
                    (λ _, Moderation.Status 403) st in
  let one_ok := Moderation.ctx_clear_messages "Bob" true
                  (λ i, if (i =? 1)%nat then Moderation.Status 204
                        else Moderation.RequestRaised) st in
  Moderation.chat_lines all_fail = ["10:00 Ann: hi"; "10:03 Cy: ok"]%string
  ∧ Moderation.trace all_fail
    = [Moderation.Ui (Moderation.ClearedTimeoutUsed 2);
       Moderation.SockSend
         ("PRIVMSG #chan :/timeout Bob 1" ++ String "013" (String "010" EmptyString));
       Moderation.DeleteRequest "m2"; Moderation.DeleteRequest "m1"]
  ∧ Moderation.trace one_ok
    = [Moderation.Ui (Moderation.DeletedOnTwitch 1 2);
       Moderation.DeleteRequest "m2"; Moderation.DeleteRequest "m1"]
  ∧ Moderation.msg_id_store one_ok = ∅.
Proof. vm_compute. repeat split; done. Qed.

Lemma remove_first_subset (x y : string) (l : list string) :
  y ∈ Moderation.remove_first x l → y ∈ l.
Proof.
  induction l as [|z l IH]; [done |]. simpl.
  destruct (decide (z = x)).
  - intros H. by apply elem_of_cons; right.
  - intros H. apply elem_of_cons in H as [-> | H]; apply elem_of_cons; auto.
Qed.

Lemma remove_first_nodup (x : string) (l : list string) :
  NoDup l → NoDup (Moderation.remove_first x l) ∧ x ∉ Moderation.remove_first x l.
Proof.
  induction 1 as [|z l Hz Hl IH]; [split; [constructor | by intros ?%elem_of_nil] |].
  simpl. destruct (decide (z = x)) as [-> | Hne].
  - done.
  - destruct IH as [IH1 IH2]. split.
    + constructor; [| done]. intros H. by apply remove_first_subset in H.
    + intros H. apply elem_of_cons in H as [-> | H]; done.
Qed.

Lemma remove_first_snoc (x : string) (l : list string) :
  x ∉ l → Moderation.remove_first x (l ++ [x]) = l.
Proof.
  induction l as [|z l IH]; intros Hx; simpl.
  - by rewrite decide_True.
  - apply not_elem_of_cons in Hx as [Hne Hx].
    rewrite decide_False by done. by rewrite IH.
Qed.

Lemma remove_first_count (x : string) (l : list string) :
  length (filter (λ y, y = x) (Moderation.remove_first x l))
  = pred (length (filter (λ y, y = x) l)).
Proof.
  induction l as [|z l IH]; [done |]. simpl.
  destruct (decide (z = x)) as [-> | Hne].
  - rewrite filter_cons, decide_True by done. done.
  - rewrite !filter_cons, !decide_False by done. done.
Qed.

Lemma filter_eq_absent (x : string) (l : list string) :
  x ∉ l → filter (λ y, y = x) l = [].
Proof.
  induction l as [|z l IH]; [done |]. intros Hx.
  apply not_elem_of_cons in Hx as [Hne Hx].
  rewrite filter_cons, decide_False by done. by apply IH.
Qed.

(** The mute list. Muting puts the name in the list, at its end and
    only if it is not there; unmuting takes out one occurrence, the
    first. A list without repetitions stays so under both, and then
    unmuting leaves the name out of the list; muting a name that was
    not muted and unmuting it again gives the list back. If the list
    loaded at start holds a name twice, one unmute leaves it muted.
    Every change writes the list that is then in memory to the
    database, and a call that changes nothing writes nothing. *)
Theorem mute_list_operations (username : string) (st : Moderation.state) :
  let muted := Moderation.mute_user username st in
  let unmuted := Moderation.unmute_user username st in
  username ∈ Moderation.mute_list muted
  ∧ (NoDup (Moderation.mute_list st) →
       NoDup (Moderation.mute_list muted)
       ∧ NoDup (Moderation.mute_list unmuted)
       ∧ username ∉ Moderation.mute_list unmuted)
  ∧ (username ∉ Moderation.mute_list st →
       Moderation.mute_list (Moderation.unmute_user username muted)
       = Moderation.mute_list st)
  ∧ length (filter (λ y, y = username) (Moderation.mute_list unmuted))
    = pred (length (filter (λ y, y = username) (Moderation.mute_list st)))
  ∧ (username ∈ Moderation.mute_list st → muted = st)
  ∧ (username ∉ Moderation.mute_list st → unmuted = st)
  ∧ (∀ st', st' = muted ∨ st' = unmuted → st' ≠ st →
       ∃ n, Moderation.trace st'
            = Moderation.Append n
              :: Moderation.PersistMutes (Moderation.mute_list st')
              :: Moderation.trace st).
Proof.
  intros muted unmuted. subst muted unmuted.
  unfold Moderation.mute_user, Moderation.unmute_user.
  destruct (decide (username ∈ Moderation.mute_list st)) as [Hin | Hnot].
  - split; [done |]. split; [| split; [done |]].
    { intros Hnd. split; [done |]. simpl. by apply remove_first_nodup. }
    split; [apply remove_first_count |]. split; [done |]. split; [done |].
    intros st' [-> | ->] Hne; [done |]. simpl. eauto.
  - split; [simpl; apply elem_of_app; right; by apply list_elem_of_singleton |].
    split.
    { intros Hnd. split; [| split; [done | done]]. simpl.
      apply NoDup_app. split; [done |]. split; [| apply NoDup_singleton].
      intros x Hx Hx'. apply list_elem_of_singleton in Hx'. by subst. }
    split.
    { intros _. simpl. rewrite decide_True
        by (apply elem_of_app; right; by apply list_elem_of_singleton).
      simpl. by apply remove_first_snoc. }
    split.
    { by rewrite filter_eq_absent. }
    split; [done |]. split; [done |].
    intros st' [-> | ->] Hne; [| done]. simpl. eauto.
Qed.

(** ** The emote image cache *)






(** ** The font size buttons *)

Lemma press_keeps_range (now : Z) (st : Fonts.state) (b : Fonts.button) :
  sizes_in_range st →
  sizes_in_range (Fonts.press now st b)
  ∧ Z.even (Fonts.chat_font_size (Fonts.press now st b))
    = Z.even (Fonts.chat_font_size st)
  ∧ (Fonts.saved (Fonts.press now st b) = Some (sizes_of (Fonts.press now st b))
     ∨ Fonts.press now st b = st).
Proof.
  intros (Ho & Hl & Hc & He). destruct st as [o l c ec nr sv].
  unfold sizes_in_range, sizes_of in *. simpl in *.
  assert (Hm : Z.even (c - 2) = Z.even c).
  { replace (c - 2) with (c + 2 * (-1)) by lia. apply Z.even_add_mul_2. }
  assert (Hp : Z.even (c + 2) = Z.even c).
  { replace (c + 2) with (c + 2 * 1) by lia. apply Z.even_add_mul_2. }
  assert (H11 : Z.even c = true → c ≠ 11) by (intros Hev ->; done).
  assert (H31 : Z.even c = true → c ≠ 31) by (intros Hev ->; done).
  destruct b; simpl;
    match goal with
    | |- context [if ?cmp then _ else _] => destruct cmp eqn:Hcmp
    end; simpl; rewrite ?Hm, ?Hp;
    try (apply Z.ltb_lt in Hcmp); try (apply Z.ltb_ge in Hcmp);
    (split; [| split; [done | first [by right | by left]]]);
    (split; [lia |]); (split; [lia |]); (split; [lia |]);
    intros Hev; specialize (He Hev); specialize (H11 Hev); specialize (H31 Hev);
    lia.
Qed.

(** The font buttons. Over any sequence of presses from sizes within
    the bounds, the output and lurker sizes stay within 8..24; the chat
    size keeps its parity and stays within 10..32 when it is even and
    within 9..33 otherwise; and the sizes written to the settings are
    the current ones, unless no press had an effect. *)
Theorem font_sizes_stay_in_range (st : Fonts.state)
    (presses : list (Z * Fonts.button)) :
  sizes_in_range st →
  sizes_in_range (press_all st presses)
  ∧ Z.even (Fonts.chat_font_size (press_all st presses))
    = Z.even (Fonts.chat_font_size st)
  ∧ (Fonts.saved (press_all st presses) = Some (sizes_of (press_all st presses))
     ∨ press_all st presses = st).
Proof.
  intros Hst. unfold press_all.
  induction presses as [|[now b] presses IH] using rev_ind; simpl.
  - split; [done |]. split; [done | by right].
  - rewrite foldl_snoc. cbn [fst snd].
    destruct IH as (IHr & IHe & IHs).
    destruct (press_keeps_range now _ b IHr) as (Hr & He & Hs).
    split; [done |]. split; [congruence |].
    destruct Hs as [Hs | Hs]; [by left |]. rewrite Hs. done.
Qed.

Lemma font_sizes_stay_in_range_witness :
  sizes_in_range
    {| Fonts.output_font_size := 9; Fonts.lurker_font_size := 24;
       Fonts.chat_font_size := 11; Fonts.emote_image_cache := [("25"%string, 1%nat)];
       Fonts.next_refresh_time := 0; Fonts.saved := None |}
  ∧ sizes_of
      (press_all
         {| Fonts.output_font_size := 9; Fonts.lurker_font_size := 24;
            Fonts.chat_font_size := 11;
            Fonts.emote_image_cache := [("25"%string, 1%nat)];
            Fonts.next_refresh_time := 0; Fonts.saved := None |}
         [(5, Fonts.OutputMinus); (6, Fonts.OutputMinus); (7, Fonts.LurkerPlus);
          (8, Fonts.ChatMinus); (9, Fonts.ChatMinus)])
    = (24, 9, 8)
  ∧ sizes_in_range
      (press_all
         {| Fonts.output_font_size := 9; Fonts.lurker_font_size := 24;
            Fonts.chat_font_size := 11;
            Fonts.emote_image_cache := [("25"%string, 1%nat)];
            Fonts.next_refresh_time := 0; Fonts.saved := None |}
         [(5, Fonts.OutputMinus); (6, Fonts.OutputMinus); (7, Fonts.LurkerPlus);
          (8, Fonts.ChatMinus); (9, Fonts.ChatMinus)]).
Proof.
  assert (H : sizes_in_range
    {| Fonts.output_font_size := 9; Fonts.lurker_font_size := 24;
       Fonts.chat_font_size := 11; Fonts.emote_image_cache := [("25"%string, 1%nat)];
       Fonts.next_refresh_time := 0; Fonts.saved := None |}).
  { unfold sizes_in_range. simpl. repeat split; try lia. all: intros; discriminate. }
  exact (conj H (conj eq_refl (proj1 (font_sizes_stay_in_range _
    [(5, Fonts.OutputMinus); (6, Fonts.OutputMinus); (7, Fonts.LurkerPlus);
     (8, Fonts.ChatMinus); (9, Fonts.ChatMinus)] H)))).
Defined.

(** ** The text of a displayed message *)

Lemma split_not_nil (sep : ascii) (s : string) : Py.split sep s ≠ [].
Proof.
  induction s as [|c s IH]; simpl; [done |].
  destruct (Ascii.eqb c sep); [done |].
  unfold Py.cons_head. by destruct (Py.split sep s).
Qed.

Lemma join_space_cons (p : string) (rest : list string) :
  rest ≠ [] →
  Render.join_space (p :: rest) = (p ++ " " ++ Render.join_space rest)%string.
Proof. by destruct rest. Qed.

Lemma join_space_split (s : string) : Render.join_space (Py.split " " s) = s.
Proof.
  induction s as [|c s IH]; [done |]. cbn [Py.split].
  destruct (Ascii.eqb c " ") eqn:Hc.
  - apply Ascii.eqb_eq in Hc. subst c.
    rewrite join_space_cons by apply split_not_nil. by rewrite IH.
  - pose proof (split_not_nil " " s) as Hne.
    destruct (Py.split " " s) as [|w ws]; [done |]. cbn [Py.cons_head].
    destruct ws as [|w' ws].
    + simpl in *. by rewrite IH.
    + rewrite join_space_cons by done. rewrite join_space_cons in IH by done.
      simpl. by rewrite <- IH.
Qed.

Lemma string_app_nil_r (s : string) : (s ++ "")%string = s.
Proof.
  induction s as [|c s IH]; [done |].
  change (String c s ++ "")%string with (String c (s ++ "")). by rewrite IH.
Qed.

Lemma string_app_assoc (a b c : string) :
  ((a ++ b) ++ c)%string = (a ++ b ++ c)%string.
Proof.
  induction a as [|x a IH]; [done |].
  change (String x (((a ++ b) ++ c)%string) = String x (a ++ b ++ c)%string).
  by rewrite IH.
Qed.

Lemma render_words_plain (emote_map : gmap string string) (cached : string → bool)
    (words : list string) :
  (∀ word, word ∈ words → emote_map !! Py.strip word = None) →
  Render.text_of (Render.render_words emote_map cached words)
  = Render.join_space words.
Proof.
  induction words as [|word rest IH]; intros Hw; [done |].
  cbn [Render.render_words]. rewrite (Hw word) by apply list_elem_of_here.
  cbn [Render.text_of]. rewrite IH by (intros w ?; apply Hw; by apply list_elem_of_further).
  destruct rest as [|w rest].
  - simpl. by rewrite !string_app_nil_r.
  - simpl. by rewrite string_app_assoc.
Qed.

Lemma log_parts_plain (emote_map : gmap string string) (words : list string) :
  (∀ word, word ∈ words → emote_map !! Py.strip word = None) →
  EmptyString ∉ words →
  Render.log_parts emote_map words = words.
Proof.
  induction words as [|word rest IH]; intros Hw Hne; [done |].
  apply not_elem_of_cons in Hne as [Hne1 Hne2].
  cbn [Render.log_parts]. rewrite (Hw word) by apply list_elem_of_here.
  destruct word as [|c word]; [done |]. simpl.
  f_equal. apply IH; [| done]. intros w ?. apply Hw. by apply list_elem_of_further.
Qed.

(** A message of at most 500 characters none of whose words is an
    emote is displayed as it was sent, character for character, runs of
    spaces included; the line written to the chat log is the message
    too when no two spaces are adjacent and none is at either end (no
    word of the split is empty). *)
Theorem plain_message_text_kept (emote_map : gmap string string)
    (cached : string → bool) (msg : string) :
  Py.len msg <= 500 →
  no_emote_word emote_map msg →
  (∃ segs, Render.render_message emote_map cached msg = Some segs
           ∧ Render.text_of segs = msg)
  ∧ (EmptyString ∉ Py.split " " msg → Render.log_message emote_map msg = msg).
Proof.
  intros Hlen Hw. split.
  - unfold Render.render_message.
    destruct (500 <? Py.len msg) eqn:Hc; [apply Z.ltb_lt in Hc; lia |].
    eexists. split; [done |].
    rewrite render_words_plain by done. apply join_space_split.
  - intros Hne. unfold Render.log_message.
    rewrite log_parts_plain by done. apply join_space_split.
Qed.

Lemma plain_message_text_kept_witness :
  Py.len "gg  wp all" <= 500
  ∧ Render.render_message (<["Kappa"%string := "25"%string]> ∅) (λ _, true)
      "gg  wp all"
    = Some [Render.Text "gg "; Render.Text " "; Render.Text "wp ";
            Render.Text "all"]
  ∧ Render.log_message (<["Kappa"%string := "25"%string]> ∅) "gg  wp all"
    = "gg wp all"%string
  ∧ ∃ segs, Render.render_message (<["Kappa"%string := "25"%string]> ∅)
              (λ _, true) "gg  wp all" = Some segs
            ∧ Render.text_of segs = "gg  wp all"%string.
Proof.
  assert (Hlen : Py.len "gg  wp all" <= 500) by (vm_compute; discriminate).
  assert (Hw : no_emote_word (<["Kappa"%string := "25"%string]> ∅) "gg  wp all").
  { intros word Hin. vm_compute in Hin.
    repeat (apply elem_of_cons in Hin as [-> | Hin]; [by vm_compute |]).
    by apply elem_of_nil in Hin. }
  exact (conj Hlen (conj eq_refl (conj eq_refl
    (proj1 (plain_message_text_kept _ (λ _, true) _ Hlen Hw))))).
Defined.

(** ** The IRC loop after a stop *)

Lemma process_irc_line_waits (debug : bool) (line : string) (st : Irc.state) :
  count_wait (Irc.trace (Irc.process_irc_line debug line st))
  = count_wait (Irc.trace st).
Proof.
  unfold Irc.process_irc_line.
  repeat match goal with
         | |- context [if ?c then _ else _] => destruct c
         | |- context [match ?c with _ => _ end] => destruct c
         end; simpl; done.
Qed.

(** Disconnecting ends the IRC loop at the next thing that happens to
    its thread, wherever it is blocked (in the connect, in a read, in a
    wait between attempts): the thread is gone, the socket is closed, and
    no further wait is made, whatever comes afterwards short of a new
    start. The state shown is "disconnected", or "failed" when the
    thread was in the user lookup and that gave no data. *)
Theorem irc_stop_ends_loop (st : Irc.state) (ev : Irc.event)
    (evs : list Irc.event) :
  loop_event (Irc.at_pc st) ev = true →
  forallb (λ e, negb (is_start e)) evs = true →
  Irc.at_pc (Irc.run (Irc.stop_chat_irc st) (ev :: evs)) = Irc.Idle
  ∧ Irc.chat_socket (Irc.run (Irc.stop_chat_irc st) (ev :: evs)) = false
  ∧ count_wait (Irc.trace (Irc.run (Irc.stop_chat_irc st) (ev :: evs)))
    = count_wait (Irc.trace st)
  ∧ (Irc.tw_state (Irc.run (Irc.stop_chat_irc st) (ev :: evs)) = Irc.Disconnected
     ∨ ev = Irc.UserInfoMissing
       ∧ Irc.tw_state (Irc.run (Irc.stop_chat_irc st) (ev :: evs)) = Irc.Failed).
Proof.
  intros Hev Hevs. unfold Irc.run. cbn [foldl].
  set (P := λ s : Irc.state,
    Irc.at_pc s = Irc.Idle ∧ Irc.chat_socket s = false
    ∧ count_wait (Irc.trace s) = count_wait (Irc.trace st)
    ∧ (Irc.tw_state s = Irc.Disconnected
       ∨ ev = Irc.UserInfoMissing ∧ Irc.tw_state s = Irc.Failed)).
  assert (H1 : P (Irc.step (Irc.stop_chat_irc st) ev)).
  { unfold P. destruct st as [s b stop sock tmo ch p q tr].
    simpl in Hev. destruct p as [| |buf|]; destruct ev; try discriminate Hev;
      simpl.
    - repeat split; auto.
    - unfold Irc.after_attempt. simpl. repeat split; auto.
    - destruct handshake_ok; unfold Irc.read_guard, Irc.after_attempt; simpl;
        repeat split; auto.
    - destruct (negb (Py.truthy data)).
      + unfold Irc.after_attempt. simpl. repeat split; auto.
      + destruct (Irc.drain _ _) as [ls buf'].
        unfold Irc.read_guard, Irc.after_attempt. simpl. repeat split; auto.
    - destruct ping_ok; unfold Irc.read_guard, Irc.after_attempt; simpl;
        repeat split; auto.
    - unfold Irc.after_attempt. simpl. repeat split; auto.
    - unfold Irc.loop_head. simpl. repeat split; auto. }
  revert H1. generalize (Irc.step (Irc.stop_chat_irc st) ev). clear Hev.
  induction evs as [|e evs IH]; intros s Hs; [exact Hs |].
  simpl in Hevs. apply andb_true_iff in Hevs as [He Hevs].
  cbn [foldl]. apply IH; [done |]. clear IH.
  destruct Hs as (Hpc & Hsock & Hw & Hst). unfold P.
  destruct e; try discriminate He; simpl; rewrite ?Hpc;
    try (repeat split; assumption).
  - unfold Irc.stop_chat_irc. simpl. repeat split; auto.
  - destruct (Irc.ui_pending s) as [|line rest] eqn:Hq;
      [repeat split; assumption |].
    destruct (process_irc_line_frame debug line (Irc.set_pending rest s))
      as (F3 & _ & _ & F2 & F1 & _ & _). cbv zeta in F1, F2, F3.
    rewrite F1, F2, F3, process_irc_line_waits. simpl. repeat split; assumption.
Qed.

Lemma irc_stop_ends_loop_witness :
  loop_event
    (Irc.at_pc (Irc.run (Irc.init "chan")
                  [Irc.StartRequested "tok" true; Irc.ConnectError]))
    Irc.WaitOver = true
  ∧ Irc.at_pc
      (Irc.run
         (Irc.stop_chat_irc
            (Irc.run (Irc.init "chan")
               [Irc.StartRequested "tok" true; Irc.ConnectError]))
         [Irc.WaitOver; Irc.UiRun false; Irc.ConnectOk true; Irc.WaitOver])
    = Irc.Idle.
Proof.
  exact (conj eq_refl
    (proj1 (irc_stop_ends_loop
      (Irc.run (Irc.init "chan") [Irc.StartRequested "tok" true; Irc.ConnectError])
      Irc.WaitOver [Irc.UiRun false; Irc.ConnectOk true; Irc.WaitOver]
      eq_refl eq_refl))).
Defined.

(** ** The YouTube client after a stop *)








(** ** What a send hands over *)

(** The message box is emptied exactly when the message went out on at
    least one platform (the Twitch send succeeded, or the YouTube send
    was started): otherwise the text stays in the box. With the log
    switched on the sent line is logged in exactly these cases. What
    goes out is the text of the box without the white space around
    it. *)
Theorem send_clears_box_iff_sent (now_time : Q) (send_ok : bool)
    (st : Send.state) :
  ∃ new,
    Send.trace (Send.send_chat_message now_time send_ok st)
    = new ++ Send.trace st
    ∧ Send.chat_message_box (Send.send_chat_message now_time send_ok st)
      = (if existsb (hands_over (Py.strip (Send.chat_message_box st))) new
         then EmptyString else Send.chat_message_box st)
    ∧ existsb (is_log_sent (Py.strip (Send.chat_message_box st))) new
      = Send.log_var st
        && existsb (hands_over (Py.strip (Send.chat_message_box st))) new.
Proof.
  unfold Send.send_chat_message.
  destruct (Send.bounce now_time st); [exists []; by rewrite andb_false_r |].
  destruct st as [last box tgt sock yt lv tr]. simpl.
  destruct (Py.truthy (Py.strip box)); simpl;
    [| exists []; by rewrite andb_false_r].
  assert (Hd : bool_decide (Py.strip box = Py.strip box) = true)
    by (by apply bool_decide_eq_true_2).
  destruct tgt, sock, send_ok, yt, lv; simpl;
    first [ eexists []; split; [reflexivity |]
          | eexists [_]; split; [reflexivity |]
          | eexists [_; _]; split; [reflexivity |]
          | eexists [_; _; _]; split; [reflexivity |]
          | eexists [_; _; _; _]; split; [reflexivity |] ];
    simpl; rewrite ?Hd; done.
Qed.

(** ** The lurker refresh timer *)

Lemma remaining_due (now : Z) (st : LurkerTimer.state) :
  (LurkerTimer.remaining now st <=? 0) = true
  ↔ LurkerTimer.next_refresh_time st - now < 1000000.
Proof.
  unfold LurkerTimer.remaining. rewrite Z.leb_le.
  set (d := LurkerTimer.next_refresh_time st - now).
  destruct (Z.lt_ge_cases d 1000000) as [Hlt | Hge].
  - split; [done | intros _].
    destruct (Z.lt_ge_cases d 0) as [Hneg | Hpos].
    + pose proof (Z.quot_opp_l d 1000000 ltac:(lia)) as Hq.
      assert (0 <= Z.quot (- d) 1000000) by (apply Z.quot_pos; lia). lia.
    + rewrite Z.quot_small by lia. lia.
  - split; [| lia]. intros Hle.
    assert (1 <= Z.quot d 1000000).
    { replace 1 with (Z.quot 1000000 1000000) by done.
      apply Z.quot_le_mono; lia. }
    lia.
Qed.

(** The lurker refresh timer. With the account known and no refresh
    running, a tick starts a refresh when the refresh time is less than
    one second ahead. While that refresh runs no tick starts another.
    When it ends without a list of chatters (the request failed or
    nobody is there) the refresh time is left as it was, so the next
    tick, one second later, starts a refresh again; when it ends with
    the lists, a tick starts the next refresh exactly when less than one
    second is left of the 60 seconds after its end. *)
Theorem lurker_refresh_retry (st : LurkerTimer.state) (now now' : Z)
    (chatters : option (list Lurkers.chatter)) (live_ids : gset string)
    (clk : nat → Z) (t t_end : Z) :
  LurkerTimer.my_id st = true → LurkerTimer.token st = true →
  LurkerTimer.is_refreshing st = false →
  LurkerTimer.next_refresh_time st - now < 1000000 →
  now <= now' →
  let st1 := LurkerTimer.run_lurker_refresh now st in
  let st2 := LurkerTimer.refresh_thread t chatters live_ids clk t_end st1 in
  LurkerTimer.launched st1 = S (LurkerTimer.launched st)
  ∧ LurkerTimer.launched (LurkerTimer.run_lurker_refresh now' st1)
    = LurkerTimer.launched st1
  ∧ LurkerTimer.launched (LurkerTimer.run_lurker_refresh now' st2)
    = match chatters with
      | None | Some [] => S (LurkerTimer.launched st1)
      | Some _ =>
          if bool_decide (t_end + 60 * 1000000 - now' < 1000000)
          then S (LurkerTimer.launched st1) else LurkerTimer.launched st1
      end.
Proof.
  intros Hid Htok Hr Hdue Hle st1 st2.
  assert (E1 : st1 =
    {| LurkerTimer.my_id := true; LurkerTimer.token := true;
       LurkerTimer.next_refresh_time := LurkerTimer.next_refresh_time st;
       LurkerTimer.is_refreshing := true;
       LurkerTimer.lurkers := LurkerTimer.lurkers st;
       LurkerTimer.refresh_label := Some LurkerTimer.Refreshing;
       LurkerTimer.launched := S (LurkerTimer.launched st);
       LurkerTimer.handed := LurkerTimer.handed st |}).
  { subst st1. unfold LurkerTimer.run_lurker_refresh.
    rewrite Hid, Htok, Hr. simpl.
    by rewrite (proj2 (remaining_due now st) Hdue). }
  split; [by rewrite E1 |]. split.
  - rewrite E1. unfold LurkerTimer.run_lurker_refresh. simpl.
    by rewrite andb_false_r.
  - subst st2. rewrite E1. unfold LurkerTimer.refresh_thread. simpl.
    assert (Hdue' : ∀ s, LurkerTimer.next_refresh_time s
                         = LurkerTimer.next_refresh_time st →
                         (LurkerTimer.remaining now' s <=? 0) = true).
    { intros s Hs. apply remaining_due. rewrite Hs. lia. }
    destruct chatters as [[|c cs]|].
    + simpl. unfold LurkerTimer.run_lurker_refresh. simpl.
      by rewrite Hdue'.
    + unfold Lurkers.do_lurker_refresh.
      destruct (foldl _ _ _) as [[[ls lo] re] n]. simpl.
      unfold LurkerTimer.run_lurker_refresh. simpl.
      destruct (bool_decide _) eqn:Hb.
      * apply bool_decide_eq_true_1 in Hb.
        by rewrite (proj2 (remaining_due now' _)).
      * apply bool_decide_eq_false_1 in Hb.
        destruct (LurkerTimer.remaining now' _ <=? 0) eqn:Hrem; [| done].
        apply remaining_due in Hrem. simpl in Hrem. done.
    + simpl. unfold LurkerTimer.run_lurker_refresh. simpl.
      by rewrite Hdue'.
Qed.

Lemma lurker_refresh_retry_witness :
  LurkerTimer.launched
    (LurkerTimer.run_lurker_refresh 60500000
       (LurkerTimer.refresh_thread 59600000 None ∅ (λ _, 59600000) 59700000
          (LurkerTimer.run_lurker_refresh 59500000
             {| LurkerTimer.my_id := true; LurkerTimer.token := true;
                LurkerTimer.next_refresh_time := 60000000;
                LurkerTimer.is_refreshing := false;
                LurkerTimer.lurkers := Lurkers.init;
                LurkerTimer.refresh_label := None;
                LurkerTimer.launched := 0; LurkerTimer.handed := [] |})))
  = 2%nat.
Proof.
  assert (Hle : 59500000 <= 60500000) by (vm_compute; discriminate).
  exact (proj2 (proj2 (lurker_refresh_retry
    {| LurkerTimer.my_id := true; LurkerTimer.token := true;
       LurkerTimer.next_refresh_time := 60000000;
       LurkerTimer.is_refreshing := false;
       LurkerTimer.lurkers := Lurkers.init;
       LurkerTimer.refresh_label := None;
       LurkerTimer.launched := 0; LurkerTimer.handed := [] |}
    59500000 60500000 None ∅ (λ _, 59600000) 59600000 59700000
    eq_refl eq_refl eq_refl eq_refl Hle))).
Defined.

(** ** The stream watcher *)

Lemma list_find_fresh {A : Type} (id : nat) (x : A) (l : list (nat * A)) :
  Forall (λ t, (t.1 < id)%nat) l →
  list_find (λ t, t.1 = id) (l ++ [(id, x)]) = Some (length l, (id, x)).
Proof.
  induction l as [|[j y] l IH]; intros Hl; simpl.
  - by rewrite decide_True.
  - apply Forall_cons in Hl as [Hj Hl]. simpl in Hj.
    rewrite decide_False by lia. by rewrite IH.
Qed.

(** The stream watcher keeps itself going. A check that ends while the
    client is neither stopped nor polling releases the watcher lock,
    whatever the request did. If it found a stream, the client is
    connected to the chat of the first broadcast and polls: one fetch
    is started (none for a chat id that is the empty string), and no
    timer is set. If not, exactly one timer is set for the next check,
    after a minute, or after six hours when the request failed for the
    quota; when it fires, exactly one new check is started and the lock
    is taken again. *)
Theorem yt_watcher_chain (a : YtWatcher.answer) (st : Yt.state)
    (log : list YtWatcher.shown) :
  Yt.yt_service st = true → Yt.yt_stop st = false → Yt.yt_polling st = false →
  Forall (λ t, (t.1 < Yt.next_timer st)%nat) (Yt.timers st) →
  let s1 := YtWatcher.yt
              (YtWatcher.check_and_run a
                 {| YtWatcher.yt := st; YtWatcher.shown_log := log |}) in
  Yt.yt_watching s1 = false
  ∧ match found_stream a with
    | Some chat_id =>
        Yt.yt_polling s1 = true
        ∧ Yt.yt_live_chat_id s1 = Some chat_id
        ∧ Yt.yt_next_page s1 = None
        ∧ Yt.yt_state s1 = Irc.Connected
        ∧ Yt.timers s1 = Yt.timers st
        ∧ Yt.count_launch_fetch (Yt.trace s1)
          = ((if Py.truthy chat_id then 1 else 0)
             + Yt.count_launch_fetch (Yt.trace st))%nat
    | None =>
        Yt.timers s1
        = Yt.timers st ++ [(Yt.next_timer st, (watch_pause a, Yt.StartYtWatcher))]
        ∧ Yt.yt_watching (Yt.fire (Yt.next_timer st) s1) = true
        ∧ Yt.count_launch_check (Yt.trace (Yt.fire (Yt.next_timer st) s1))
          = S (Yt.count_launch_check (Yt.trace st))
    end.
Proof.
  intros Hsvc Hstop Hpoll Hfresh s1.
  assert (Hnone : ∀ ms tasks,
    (tasks = [YtWatcher.TAfter ms] ∨ tasks = [YtWatcher.TQuotaLabel; YtWatcher.TAfter ms]) →
    let s := YtWatcher.yt
               (foldl YtWatcher.run_task
                  {| YtWatcher.yt := Yt.with_watching false st;
                     YtWatcher.shown_log := log |} tasks) in
    Yt.yt_watching s = false
    ∧ Yt.timers s = Yt.timers st ++ [(Yt.next_timer st, (ms, Yt.StartYtWatcher))]
    ∧ Yt.yt_watching (Yt.fire (Yt.next_timer st) s) = true
    ∧ Yt.count_launch_check (Yt.trace (Yt.fire (Yt.next_timer st) s))
      = S (Yt.count_launch_check (Yt.trace st))).
  { intros ms tasks Ht s.
    assert (Es : s = YtWatcher.after ms (Yt.with_watching false st)).
    { subst s. destruct Ht as [-> | ->]; reflexivity. }
    rewrite Es. split; [done |]. split; [done |].
    unfold Yt.fire. simpl. rewrite (list_find_fresh _ _ _ Hfresh).
    unfold Yt.start_yt_watcher. simpl. rewrite Hpoll, Hstop. simpl. done. }
  subst s1. unfold YtWatcher.check_and_run, YtWatcher.check. simpl.
  rewrite Hsvc. simpl.
  destruct a as [err_str | [|[chat_id|] items]]; simpl.
  - unfold YtWatcher.on_error. simpl. rewrite Hstop. simpl.
    destruct (YtWatcher.is_quota err_str).
    + destruct (Hnone 21600000 _ (or_intror eq_refl)) as (H1 & H2 & H3 & H4).
      done.
    + destruct (Hnone 60000 _ (or_introl eq_refl)) as (H1 & H2 & H3 & H4).
      done.
  - rewrite Hstop. simpl.
    destruct (Hnone 60000 _ (or_introl eq_refl)) as (H1 & H2 & H3 & H4). done.
  - unfold Yt.poll_yt_chat, Yt.poll_guard. simpl. rewrite Hstop, andb_true_r.
    destruct (Py.truthy chat_id); simpl; done.
  - unfold YtWatcher.on_error. simpl. rewrite Hstop. simpl.
    replace (YtWatcher.is_quota YtWatcher.key_error) with false by (by vm_compute).
    destruct (Hnone 60000 _ (or_introl eq_refl)) as (H1 & H2 & H3 & H4). done.
Qed.

Lemma yt_watcher_chain_witness :
  Yt.timers
    (YtWatcher.yt
       (YtWatcher.check_and_run (YtWatcher.CheckRaised "quotaExceeded")
          {| YtWatcher.yt :=
               {| Yt.yt_service := true; Yt.yt_live_chat_id := None;
                  Yt.yt_next_page := None; Yt.yt_polling := false;
                  Yt.yt_watching := true; Yt.yt_poll_job := None;
                  Yt.yt_stop := false; Yt.yt_state := Irc.Disconnected;
                  Yt.timers := [(3%nat, (15000, Yt.PollYtChat))];
                  Yt.next_timer := 4; Yt.ui_queue := []; Yt.trace := [] |};
             YtWatcher.shown_log := [] |}))
  = [(3%nat, (15000, Yt.PollYtChat)); (4%nat, (21600000, Yt.StartYtWatcher))].
Proof.
  assert (Hfresh : Forall (λ t : nat * (Z * Yt.callback), (t.1 < 4)%nat)
                     [(3%nat, (15000, Yt.PollYtChat))]).
  { repeat constructor. }
  exact (proj1 (proj2 (yt_watcher_chain (YtWatcher.CheckRaised "quotaExceeded")
    {| Yt.yt_service := true; Yt.yt_live_chat_id := None;
       Yt.yt_next_page := None; Yt.yt_polling := false;
       Yt.yt_watching := true; Yt.yt_poll_job := None;
       Yt.yt_stop := false; Yt.yt_state := Irc.Disconnected;
       Yt.timers := [(3%nat, (15000, Yt.PollYtChat))];
       Yt.next_timer := 4; Yt.ui_queue := []; Yt.trace := [] |}
    [] eq_refl eq_refl eq_refl Hfresh))).
Defined.

(** ** The lines of the IRC stream *)

Lemma startswith_crlf (s : string) :
  Py.startswith crlf s = true ↔ ∃ r, s = String "013" (String "010" r).
Proof.
  unfold Py.startswith, crlf. destruct s as [|c [|d r]]; cbn [String.prefix].
  - split; [done | intros [? [=]]].
  - destruct (ascii_dec _ _); (split; [done | intros [? [=]]]).
  - destruct (ascii_dec "013" c) as [<- |]; [| split; [done | intros [? [=]]; done]].
    destruct (ascii_dec "010" d) as [<- |]; [| split; [done | intros [? [=]]; done]].
    split; [intros _; by exists r | by destruct r].
Qed.

Lemma string_app_cons (c : ascii) (a b : string) :
  (String c a +:+ b)%string = String c (a +:+ b).
Proof. reflexivity. Qed.


Lemma cut_line_rejoin (buf l r : string) :
  Irc.cut_line buf = Some (l, r) →
  buf = (l +:+ crlf +:+ r)%string ∧ Irc.cut_line l = None.
Proof.
  revert l r. induction buf as [|c rest IH]; intros l r; [done |].
  rewrite cut_line_cons. fold crlf.
  destruct (Py.startswith crlf (String c rest)) eqn:Hs.
  - apply startswith_crlf in Hs as [r0 [= -> ->]].
    intros [= <- <-]. split; [| done]. simpl. by rewrite drop_0 || reflexivity.
  - destruct (Irc.cut_line rest) as [[l' r']|] eqn:Hc; [| done].
    cbn [mbind option_bind]. intros [= <- <-].
    destruct (IH _ _ eq_refl) as [-> Hl']. split; [done |].
    rewrite cut_line_cons. fold crlf.
    destruct (Py.startswith crlf (String c l')) eqn:Hs'; [| by rewrite Hl'].
    apply startswith_crlf in Hs' as [r0 [= -> ->]].
    assert (Py.startswith crlf
              (String "013" (String "010" r0 +:+ crlf +:+ r')) = true)
      by (apply startswith_crlf; by eexists).
    congruence.
Qed.


Lemma string_length_app (a b : string) :
  String.length (a +:+ b) = (String.length a + String.length b)%nat.
Proof.
  induction a as [|c a IH]; [done |].
  rewrite string_app_cons. simpl. by rewrite IH.
Qed.



(** The splitter of the IRC stream loses nothing. What a receive takes
    out of the buffer are the complete lines, in order: put back with
    their line ends in front of what stays in the buffer they give the
    buffer as it was; no line holds a line end, and none is left in the
    buffer. *)
Theorem irc_lines_lossless (buf : string) :
  unlines_crlf (Irc.drain (String.length buf) buf).1
    (Irc.drain (String.length buf) buf).2 = buf
  ∧ Forall (λ l, Irc.cut_line l = None) (Irc.drain (String.length buf) buf).1
  ∧ Irc.cut_line (Irc.drain (String.length buf) buf).2 = None.
Proof.
  split; [| split; [| by apply drain_complete]].
  - assert (H : ∀ fuel b, (String.length b <= fuel)%nat →
                  unlines_crlf (Irc.drain fuel b).1 (Irc.drain fuel b).2 = b).
    { induction fuel as [|fuel IH]; intros b Hb; [done |].
      simpl. destruct (Irc.cut_line b) as [[l r]|] eqn:Hc; [| done].
      pose proof (cut_line_shorter _ _ _ Hc) as Hr.
      apply cut_line_rejoin in Hc as [-> _].
      specialize (IH r ltac:(lia)).
      destruct (Irc.drain fuel r) as [ls r']. simpl in *. by rewrite IH. }
    by apply H.
  - assert (H : ∀ fuel b, Forall (λ l, Irc.cut_line l = None) (Irc.drain fuel b).1).
    { induction fuel as [|fuel IH]; intros b; [constructor |].
      simpl. destruct (Irc.cut_line b) as [[l r]|] eqn:Hc; [| constructor].
      apply cut_line_rejoin in Hc as [_ Hl].
      specialize (IH r). destruct (Irc.drain fuel r) as [ls r']. simpl in *.
      by constructor. }
    apply H.
Qed.



(** ** The chat widget *)

Lemma local_wipe_shorter (username : string) (lines : list string) :
  (length (Moderation.local_wipe username lines).1 <= length lines)%nat.
Proof.
  unfold Moderation.local_wipe. cbn [fst].
  pose proof (local_wipe_aux username lines []) as H. simpl in H.
  rewrite H. apply length_filter.
Qed.

Lemma widget_step_bounded (st : ChatWidget.state) (ev : ChatWidget.event) :
  Z.of_nat (length (ChatWidget.chat_lines st)) <= ChatWidget.chat_message_count st <= 200 →
  Z.of_nat (length (ChatWidget.chat_lines (ChatWidget.step st ev)))
  <= ChatWidget.chat_message_count (ChatWidget.step st ev) <= 200.
Proof.
  intros [H1 H2].
  destruct ev as [line | username];
    cbn [ChatWidget.step ChatWidget.chat_lines ChatWidget.chat_message_count].
  - unfold ChatWidget.append_chat_message, ChatWidget.max_chat_messages.
    destruct (200 <? ChatWidget.chat_message_count st + 1) eqn:Hc; simpl.
    + apply Z.ltb_lt in Hc. rewrite length_drop, length_app. cbn [length]. lia.
    + apply Z.ltb_ge in Hc. rewrite length_app. cbn [length]. lia.
  - pose proof (local_wipe_shorter username (ChatWidget.chat_lines st)). lia.
Qed.

Lemma widget_appends (msgs : list string) :
  let st := ChatWidget.run ChatWidget.init (map ChatWidget.Append msgs) in
  ChatWidget.chat_message_count st = Z.of_nat (length (ChatWidget.chat_lines st))
  ∧ ChatWidget.chat_lines st
    = drop (length msgs - length (ChatWidget.chat_lines st)) msgs
  ∧ (length (ChatWidget.chat_lines st) <= length msgs)%nat
  ∧ (length (ChatWidget.chat_lines st) <= 200)%nat
  ∧ ((length msgs <= 200)%nat → ChatWidget.chat_lines st = msgs)
  ∧ ((200 < length msgs)%nat → (101 <= length (ChatWidget.chat_lines st))%nat).
Proof.
  unfold ChatWidget.run.
  induction msgs as [|m msgs IH] using rev_ind.
  - simpl. repeat split; try done; lia.
  - rewrite map_app, foldl_app. cbn [map foldl ChatWidget.step].
    destruct IH as (Hc & Hl & Hle & H200 & Hsmall & Hbig).
    set (st := foldl ChatWidget.step ChatWidget.init (map ChatWidget.Append msgs)) in *.
    assert (Hl1 : ChatWidget.chat_lines st ++ [m]
                  = drop (length msgs - length (ChatWidget.chat_lines st))
                      (msgs ++ [m])).
    { rewrite drop_app_le by lia. by rewrite <- Hl. }
    unfold ChatWidget.append_chat_message, ChatWidget.max_chat_messages.
    rewrite Hc, length_app. simpl.
    destruct (200 <? Z.of_nat (length (ChatWidget.chat_lines st)) + 1) eqn:Hcmp;
      simpl.
    + apply Z.ltb_lt in Hcmp.
      assert (E : length (ChatWidget.chat_lines st) = 200%nat) by lia.
      rewrite length_drop, length_app. simpl. rewrite E.
      split; [lia |]. split.
      * rewrite Hl1, drop_drop, E. f_equal. lia.
      * repeat split; try lia.
    + apply Z.ltb_ge in Hcmp. rewrite length_app. simpl.
      split; [lia |]. split.
      * rewrite Hl1. f_equal. lia.
      * split; [lia |]. split; [lia |]. split.
        -- intros Hm. by rewrite Hsmall by lia.
        -- intros Hm. destruct (decide (length msgs = 200%nat)) as [E | E].
           ++ rewrite Hsmall by lia. lia.
           ++ specialize (Hbig ltac:(lia)). lia.
Qed.

(** The chat widget holds at most 200 messages. Whatever is appended
    and wiped, the number of its lines is at most the message counter
    and the counter is at most 200. When only messages are appended the
    widget shows the newest ones, in order: all of them up to 200, and
    from then on between 101 and 200 of them, the counter being their
    number. *)
Theorem chat_widget_keeps_newest (evs : list ChatWidget.event)
    (msgs : list string) :
  (Z.of_nat (length (ChatWidget.chat_lines (ChatWidget.run ChatWidget.init evs)))
   <= ChatWidget.chat_message_count (ChatWidget.run ChatWidget.init evs) <= 200)
  ∧ (let st := ChatWidget.run ChatWidget.init (map ChatWidget.Append msgs) in
     ChatWidget.chat_message_count st
     = Z.of_nat (length (ChatWidget.chat_lines st))
     ∧ ChatWidget.chat_lines st
       = drop (length msgs - length (ChatWidget.chat_lines st)) msgs
     ∧ ((length msgs <= 200)%nat → ChatWidget.chat_lines st = msgs)
     ∧ ((200 < length msgs)%nat →
        (101 <= length (ChatWidget.chat_lines st) <= 200)%nat)).
Proof.
  split.
  - unfold ChatWidget.run.
    induction evs as [|ev evs IH] using rev_ind; [simpl; lia |].
    rewrite foldl_snoc. by apply widget_step_bounded.
  - destruct (widget_appends msgs) as (Hc & Hl & Hle & H200 & Hsmall & Hbig).
    cbv zeta. split; [done |]. split; [done |]. split; [done |].
    intros Hm. split; [by apply Hbig | done].
Qed.

(** After a wipe the counter is ahead of the lines, and the next trim
    can empty the widget, the message just appended included. *)
Example chat_widget_trim_after_wipe :
  ChatWidget.chat_lines
    (ChatWidget.run
       {| ChatWidget.chat_lines := ["a: x"; "b: y"; "a: z"]%string;
          ChatWidget.chat_message_count := 200 |}
       [ChatWidget.Wipe "a"; ChatWidget.Append "c: new"])
  = [].
Proof. reflexivity. Qed.
